(** * tokenify: from flat artwork to a layered token script

    A shallow embedding of [tokenify.py] and the properties of its
    sampling, grouping, naming and layering steps.

    Numbers are the program's own: Python floats are IEEE 754 binary64
    values, embedded as Rocq's primitive floats, and Python integers are [Z].
    Exceptions are values of an error type; the output script is the
    stream of statements the writer appends, in call order. *)

From Stdlib Require Import ZArith Floats List Ascii String Bool Lia Permutation.
Import ListNotations.

#[local] Set Warnings "-inexact-float".
#[local] Open Scope string_scope.
#[local] Open Scope list_scope.

(** ** Exceptions and fallible computations *)

Inductive exn : Type :=
| NameError (name : string)
| ValueError (msg : string)
| OverflowError (msg : string).

Inductive result (A : Type) : Type :=
| Ok (a : A)
| Raise (e : exn).

Arguments Ok {A} a.
Arguments Raise {A} e.

Definition bind {A B : Type} (m : result A) (k : A -> result B) : result B :=
  match m with
  | Ok a => k a
  | Raise e => Raise e
  end.

Notation "x <- m ;; k" := (bind m (fun x => k))
  (at level 61, m at next level, right associativity).

Fixpoint mapM {A B : Type} (f : A -> result B) (l : list A) : result (list B) :=
  match l with
  | [] => Ok []
  | a :: l' => b <- f a ;; bs <- mapM f l' ;; Ok (b :: bs)
  end.

Definition is_ok {A : Type} (m : result A) : bool :=
  match m with Ok _ => true | Raise _ => false end.

(** ** Python numbers *)

(** [round(x)] of a float: the nearest integer, ties to the even one; NaN and
    the infinities raise. *)
Definition round_half_even (m d : Z) : Z :=
  let q := (m / d)%Z in
  let r := (m mod d)%Z in
  match (2 * r ?= d)%Z with
  | Lt => q
  | Gt => (q + 1)%Z
  | Eq => if Z.even q then q else (q + 1)%Z
  end.

Definition py_round (v : float) : result Z :=
  match Prim2SF v with
  | S754_nan => Raise (ValueError "cannot convert float NaN to integer")
  | S754_infinity _ => Raise (OverflowError "cannot convert float infinity to integer")
  | S754_zero _ => Ok 0%Z
  | S754_finite s m e =>
      let a := match e with
               | Zneg p => round_half_even (Zpos m) (2 ^ Zpos p)
               | _ => (Zpos m * 2 ^ e)%Z
               end in
      Ok (if s then (- a)%Z else a)
  end.

(** An integer operand of a float operation is converted to the nearest
    float; one beyond the float range raises. *)
Definition float_of_int (k : Z) : result float :=
  let f := SF2Prim (binary_normalize prec emax k 0 false) in
  if is_infinity f then Raise (OverflowError "int too large to convert to float")
  else Ok f.

(** Truth value of a float: every float but zero. *)
Definition float_truthy (v : float) : bool := negb (v =? 0)%float.

(** ** Names visible in the module *)

(** The names bound at the top level of [tokenify.py], in order, and the
    builtins it calls. *)
Definition module_globals : list string :=
  [ "argparse"; "re"; "os"; "dataclass";
    "Optional"; "Iterable"; "Tuple"; "Generator"; "TextIO"; "Dict";
    "rt"; "json";
    "Scene"; "Shape"; "Group"; "ColorSet"; "Polygon"; "Point"; "Color";
    "OutputWriter"; "ScadRenderer"; "ScadWriter"; "Identifier"; "css";
    "group_by"; "identity"; "FactoryDict"; "pluralize"; "filter_repetition";
    "conditional_context"; "svg"; "extract_value";
    "ShapeNames"; "GroupNames"; "sanitize_identifier";
    "show_info"; "SCENE_HEIGHT"; "PRECISION"; "OVERLAY"; "FLIP";
    "TokenShape"; "TokenGroup"; "TokenScene"; "create_scene"; "render_base";
    "TokenGroupNames"; "TokenOutputWriter"; "render_faces"; "make_amiibozo" ].

Definition builtins : list string :=
  [ "len"; "max"; "print"; "round"; "tuple"; "open" ].

Definition load_global (name : string) : result unit :=
  if existsb (String.eqb name) (module_globals ++ builtins)
  then Ok tt
  else Raise (NameError name).

(** [logger.warning(msg)]: the name is looked up when the statement runs;
    the message is logged only if the lookup succeeds. *)
Definition logger_warning (msg : string) : result (list string) :=
  _ <- load_global "logger" ;; Ok [msg].

Inductive PyNum : Type :=
| PyInt (n : Z)
| PyFloat (v : float).

(** ** The vector-path source and the other collaborators *)

(** A point of a sampled segment, in the file's native unit. *)
Record SvgPoint : Type := { svg_x : float; svg_y : float }.

Definition SvgPoint_eqb (p q : SvgPoint) : bool :=
  (svg_x p =? svg_x q)%float && (svg_y p =? svg_y q)%float.

(** A flattened path: its id, its style and its sampling operation. *)
Record SvgPath (Style : Type) : Type := {
  svg_id : string;
  svg_style : Style;
  svg_segments : PyNum -> list (list SvgPoint)
}.

Arguments svg_id {Style} _.
Arguments svg_style {Style} _.
Arguments svg_segments {Style} _ _.

(** What the program imports from [svg_extrude] and [cjlano_svg] and only
    calls: the style parser, colors, identifier sanitizing and the artwork
    files themselves. *)
Class Externals : Type := {
  Style : Type;
  extract_value : Style -> string -> option string;
  Color : Type;
  Color_from_html : string -> result Color;
  Color_eqb : Color -> Color -> bool;
  Color_eqb_spec : forall c d : Color, reflect (c = d) (Color_eqb c d);
  display_name : Color -> string;
  delta_e : Color -> Color -> float;
  sanitize_identifier : string -> string;
  svg_parse_flatten : string -> result (list (SvgPath Style))
}.

(** Modelled from the spec: [filter_repetition] of [svg_extrude.util.iter],
    which drops every item equal to the one before it. *)
Fixpoint filter_repetition_after {A : Type} (eqb : A -> A -> bool)
    (previous : A) (items : list A) : list A :=
  match items with
  | [] => []
  | item :: rest =>
      if eqb item previous then filter_repetition_after eqb previous rest
      else item :: filter_repetition_after eqb item rest
  end.

Definition filter_repetition {A : Type} (eqb : A -> A -> bool)
    (items : list A) : list A :=
  match items with
  | [] => []
  | item :: rest => item :: filter_repetition_after eqb item rest
  end.

(** ** The data model *)

Record Point : Type := { point_x : float; point_y : float }.

Definition Point_eqb (p q : Point) : bool :=
  (point_x p =? point_x q)%float && (point_y p =? point_y q)%float.

Record Polygon : Type := { paths : list (list Point) }.

Record Shape_ (Color : Type) : Type := {
  shape_name : string;
  shape_color : Color;
  shape_polygon : Polygon
}.

Arguments shape_name {Color} _.
Arguments shape_color {Color} _.
Arguments shape_polygon {Color} _.

(** The shapes, groups and scenes of a set of collaborators are those over
    its colors. *)
Abbreviation Shape := (Shape_ Color).

(** A Python object has an identity besides its value: [is] and [id()]
    observe the former, [==] the latter. Objects are numbered in creation
    order. *)
Record object (A : Type) : Type := { oid : nat; oval : A }.

Arguments oid {A} _.
Arguments oval {A} _.

Fixpoint allocate {A : Type} (next : nat) (values : list A) : list (object A) :=
  match values with
  | [] => []
  | v :: rest => {| oid := next; oval := v |} :: allocate (S next) rest
  end.

(** ** TokenShape *)

Module TokenShape.
Section Sampling.
Context `{Externals}.

Definition px : float := (25.4e-3 / 72)%float.

Definition length (snap : option float) (v : float) : result float :=
  let v := (v * px)%float in
  match snap with
  | Some s =>
      if float_truthy s then
        k <- py_round (v / s)%float ;;
        kf <- float_of_int k ;;
        Ok (s * kf)%float
      else Ok v
  | None => Ok v
  end.

Definition point (snap : option float) (reverse : bool)
    (svg_point : SvgPoint) : result Point :=
  x <- (if reverse then length snap (90 - svg_x svg_point)%float
        else length snap (svg_x svg_point)) ;;
  y <- length snap (svg_y svg_point) ;;
  Ok {| point_x := x; point_y := y |}.

Definition path (snap : option float) (reverse : bool)
    (segment : list SvgPoint) : result (list Point) :=
  mapM (point snap reverse) (filter_repetition SvgPoint_eqb segment).

Definition str_truthy (s : string) : bool :=
  match s with EmptyString => false | _ => true end.

(** [extract_value(style, "fill") or "#000000"]: the default stands in for
    a missing and for an empty value, so the text is never empty and the
    test [if fill:] that follows always passes. *)
Definition fill_text (style : Style) : string :=
  match extract_value style "fill" with
  | Some s => if str_truthy s then s else "#000000"
  | None => "#000000"
  end.

Definition opt_is (o : option string) (s : string) : bool :=
  match o with
  | Some t => String.eqb t s
  | None => false
  end.

Definition is_None {A : Type} (o : option A) : bool :=
  match o with None => true | Some _ => false end.

(** The shape of a path and the warnings logged on the way. *)
Definition from_svg_path (svg_path : SvgPath Style) (precision : PyNum)
    (snap : option float) (reverse : bool) : result (Shape * list string) :=
  let fill_rule := extract_value (svg_style svg_path) "fill-rule" in
  w1 <- (if negb (is_None fill_rule || opt_is fill_rule "evenodd")
         then logger_warning
                (svg_id svg_path ++ ": fill rule not supported. Using evenodd instead.")%string
         else Ok []) ;;
  let stroke := extract_value (svg_style svg_path) "stroke" in
  w2 <- (if negb (is_None stroke || opt_is stroke "none")
         then logger_warning
                (svg_id svg_path ++ ": stroked paths are not supported. Ignoring stroke.")%string
         else Ok []) ;;
  fill <- Color_from_html (fill_text (svg_style svg_path)) ;;
  let segments := svg_segments svg_path precision in
  paths <- mapM (path snap reverse) segments ;;
  let polygon := {| paths := paths |} in
  Ok ({| shape_name := svg_id svg_path; shape_color := fill; shape_polygon := polygon |},
      (w1 ++ w2)%list).

End Sampling.
End TokenShape.

(** ** Grouping *)

Section GroupBy.
Context {K V : Type} (key_eqb : K -> K -> bool).

(** [result[k].append(v)] on a dict whose values are lists: a dict keeps
    its keys in the order they were first inserted. *)
Fixpoint dict_append (d : list (K * list V)) (k : K) (v : V) : list (K * list V) :=
  match d with
  | [] => [(k, [v])]
  | (k', vs) :: d' =>
      if key_eqb k' k then (k', vs ++ [v])%list :: d'
      else (k', vs) :: dict_append d' k v
  end.

(** Modelled from the spec: [group_by] of [svg_extrude.util], the stable
    partition of the items by their key, every item appended to the list of
    its key and the keys enumerated in order of first occurrence. *)
Definition group_by (items : list V) (key : V -> K) : list (K * list V) :=
  fold_left (fun d item => dict_append d (key item) item) items [].

End GroupBy.

(** The palette classifier: its truth value and its nearest-match lookup. *)
Record ColorSet_ (Color : Type) : Type := {
  colorset_bool : bool;
  closest : Color -> Color
}.

Arguments colorset_bool {Color} _.
Arguments closest {Color} _ _.

Abbreviation ColorSet := (ColorSet_ Color).

Module TokenGroup.

Record group (Color : Type) : Type := {
  name : string;
  color : Color;
  shapes : list (object (Shape_ Color))
}.

Arguments name {Color} _.
Arguments color {Color} _.
Arguments shapes {Color} _.

Abbreviation t := (group Color).

Section ByColor.
Context `{Externals}.

Definition create_group (name : string) (color : Color)
    (group_shapes : list (object Shape)) : t :=
  {| name := name; color := color; shapes := group_shapes |}.

Definition identity {A : Type} (a : A) : A := a.

Definition by_color (shapes : list (object Shape))
    (color_mapping : option (Color -> Color)) (name : string) : list t :=
  let color_mapping :=
    match color_mapping with
    | None => identity
    | Some f => f
    end in
  let grouped :=
    group_by Color_eqb shapes (fun shape => color_mapping (shape_color (oval shape))) in
  map (fun '(color, shapes) => create_group name color shapes) grouped.

End ByColor.
End TokenGroup.

Record Scene_ (Color : Type) : Type := {
  scene_shapes : list (object (Shape_ Color));
  scene_groups : list (object (TokenGroup.group Color))
}.

Arguments scene_shapes {Color} _.
Arguments scene_groups {Color} _.

Abbreviation Scene := (Scene_ Color).

Definition PRECISION : PyNum := PyInt 1.

Module TokenScene.
Section FromSvg.
Context `{Externals}.

(** [next] is the number the first object created here gets: the shapes
    come first, in path order, then the groups as the generator yields
    them. The warnings of all paths are returned with the scene. *)
Definition from_svg (next : nat) (file_name : string) (precision : PyNum)
    (available_colors : option ColorSet) (snap : option float) (reverse : bool)
    : result (Scene * list string) :=
  svg_paths <- svg_parse_flatten file_name ;;
  sampled <- mapM (fun path => TokenShape.from_svg_path path precision snap reverse)
                  svg_paths ;;
  let shapes := allocate next (map fst sampled) in
  let color_mapping :=
    match available_colors with
    | Some cs => if colorset_bool cs then Some (closest cs) else None
    | None => None
    end in
  let groups :=
    allocate (next + List.length shapes)
             (TokenGroup.by_color shapes color_mapping file_name) in
  Ok ({| scene_shapes := shapes; scene_groups := groups |}, List.concat (map snd sampled)).

Definition create_scene (next : nat) (filename : string) (reverse : bool)
    : result (Scene * list string) :=
  from_svg next filename PRECISION None None reverse.

(** The number of objects a scene holds. *)
Definition scene_size (scene : Scene) : nat :=
  List.length (scene_shapes scene) + List.length (scene_groups scene).

End FromSvg.
End TokenScene.

(** ** The console report *)

(** [max] of a sequence of floats: the first item, replaced by each later
    item that is greater; an empty sequence raises. *)
Definition py_max (items : list float) : result float :=
  match items with
  | [] => Raise (ValueError "max() arg is an empty sequence")
  | first :: rest =>
      Ok (fold_left (fun m item => if (m <? item)%float then item else m) rest first)
  end.

Record InfoRow : Type := {
  row_name : string;
  row_shape_count : nat;
  row_max_delta_e : float
}.

Section ShowInfo.
Context `{Externals}.

(** The rows of the table [show_info] prints, one per group. *)
Definition show_info (scene : Scene) : result (list InfoRow) :=
  mapM (fun group : object TokenGroup.t =>
          let name := display_name (TokenGroup.color (oval group)) in
          let shape_count := List.length (TokenGroup.shapes (oval group)) in
          max_delta_e <-
            py_max (map (fun shape : object Shape =>
                           delta_e (shape_color (oval shape)) (TokenGroup.color (oval group)))
                        (TokenGroup.shapes (oval group))) ;;
          Ok {| row_name := (name ++ ":")%string;
                row_shape_count := shape_count;
                row_max_delta_e := max_delta_e |})
       (scene_groups scene).

End ShowInfo.

(** ** The identifier registry *)

Record Identifier : Type := { identifier : string }.

Section FactoryDict.
Context {K V : Type} (key_eqb : K -> K -> bool) (factory : K -> V).

Fixpoint dict_find (d : list (K * V)) (k : K) : option V :=
  match d with
  | [] => None
  | (k', v) :: d' => if key_eqb k' k then Some v else dict_find d' k
  end.

(** Modelled from the spec: [FactoryDict] of [svg_extrude.util], a dict that
    creates the value of a missing key with its factory on first reference,
    stores it, and returns the stored value on every later reference. Being
    a dict, it finds a stored key as a dict does, with [key_eqb]. *)
Definition getitem (d : list (K * V)) (k : K) : V * list (K * V) :=
  match dict_find d k with
  | Some v => (v, d)
  | None => let v := factory k in (v, (d ++ [(k, v)])%list)
  end.

(** A session of lookups, in order: the values returned and the dict left. *)
Fixpoint lookups (d : list (K * V)) (ks : list K) : list V * list (K * V) :=
  match ks with
  | [] => ([], d)
  | k :: ks' =>
      let '(v, d1) := getitem d k in
      let '(vs, d2) := lookups d1 ks' in
      (v :: vs, d2)
  end.

End FactoryDict.

(** A dict compares a key with a stored one by identity first, then by
    [==]. *)
Definition object_eqb {A : Type} (value_eqb : A -> A -> bool) (a b : object A) : bool :=
  (oid a =? oid b)%nat || value_eqb (oval a) (oval b).

Fixpoint list_eqb {A : Type} (eqb : A -> A -> bool) (l1 l2 : list A) : bool :=
  match l1, l2 with
  | [], [] => true
  | a :: l1', b :: l2' => eqb a b && list_eqb eqb l1' l2'
  | _, _ => false
  end.

(** What the writer takes from [svg_extrude] for shapes: their equality and
    the name record of a shape, of which only [clipped_shape] is read here. *)
Class ShapeExternals `{Externals} : Type := {
  Shape_eqb : Shape -> Shape -> bool;
  ShapeNames : Type;
  ShapeNames_init : Shape -> ShapeNames;
  clipped_shape : ShapeNames -> Identifier
}.

Record GroupNames : Type := {
  names_name : string;
  names_group : Identifier;
  names_solid : Identifier
}.

(** The statements of the output script, in the order written. A scoped
    block is its opening statement, its body and [close_block]; the steps
    inherited from [OutputWriter] are recorded as calls with their
    arguments. *)
Inductive Scad_ (Color : Type) : Type :=
| blank_line
| comment (text : string)
| print (text : string)
| open_translate (v : list PyNum)
| open_difference
| open_define_module (id : Identifier)
| open_flip (flip : bool)
| close_block
| instance (id : Identifier)
| write_points_and_paths (shapes : list (object (Shape_ Color)))
| write_shapes (shapes : list (object (Shape_ Color)))
| write_clipped_shapes (shapes : list (object (Shape_ Color)))
| write_solids (groups : list (object (TokenGroup.group Color))) (height : PyNum)
| instantiate_groups (groups : list (object (TokenGroup.group Color))) (offset : PyNum).

Arguments blank_line {Color}.
Arguments comment {Color} _.
Arguments print {Color} _.
Arguments open_translate {Color} _.
Arguments open_difference {Color}.
Arguments open_define_module {Color} _.
Arguments open_flip {Color} _.
Arguments close_block {Color}.
Arguments instance {Color} _.
Arguments write_points_and_paths {Color} _.
Arguments write_shapes {Color} _.
Arguments write_clipped_shapes {Color} _.
Arguments write_solids {Color} _ _.
Arguments instantiate_groups {Color} _ _.

Abbreviation Scad := (Scad_ Color).

Record TokenOutputWriter_ (Color ShapeNames : Type) : Type := {
  scad_writer : list (Scad_ Color);
  _shape_names : list (object (Shape_ Color) * ShapeNames);
  _group_names : list (object (TokenGroup.group Color) * GroupNames)
}.

Arguments scad_writer {Color ShapeNames} _.
Arguments _shape_names {Color ShapeNames} _.
Arguments _group_names {Color ShapeNames} _.

Abbreviation TokenOutputWriter := (TokenOutputWriter_ Color ShapeNames).

(** ** The output file *)

(** A text is held as the bytes of its UTF-8 encoding. A character starts
    at a byte that is no continuation byte (10xxxxxx) and takes the
    continuation bytes that follow it; a character below 128 is one byte. *)
Definition is_continuation (c : ascii) : bool :=
  match c with
  | Ascii _ _ _ _ _ _ b6 b7 => b7 && negb b6
  end.

Definition is_ascii (c : ascii) : bool :=
  match c with
  | Ascii _ _ _ _ _ _ _ b7 => negb b7
  end.

Fixpoint skip_continuation (text : string) : string :=
  match text with
  | String c rest => if is_continuation c then skip_continuation rest else text
  | EmptyString => text
  end.

Definition newline : ascii := "010"%char.

(** [$] of a pattern: the end of the text, or the place just before a
    newline that ends the text. *)
Definition at_end (text : string) : bool :=
  match text with
  | EmptyString => true
  | String c EmptyString => Ascii.eqb c newline
  | _ => false
  end.

(** [svg$] at the head of a text; the answer is what follows the match. *)
Definition match_svg_end (text : string) : option string :=
  match text with
  | String c1 (String c2 (String c3 after)) =>
      if Ascii.eqb c1 "s" && Ascii.eqb c2 "v" && Ascii.eqb c3 "g" && at_end after
      then Some after
      else None
  | _ => None
  end.

(** The pattern ['.svg$'] at a place of a text: one whole character that is
    not a newline, then [svg], then [$]. There is no match inside a
    character. *)
Definition match_svg (text : string) : option string :=
  match text with
  | String c rest =>
      if is_continuation c || Ascii.eqb c newline then None
      else match_svg_end (skip_continuation rest)
  | EmptyString => None
  end.

(** [re.sub('.svg$', repl, text)] for a replacement without escapes: the
    leftmost match is replaced; what follows a match is at most one newline,
    where the pattern cannot match again. *)
Fixpoint re_sub_svg (repl text : string) : string :=
  match text with
  | EmptyString => EmptyString
  | String c rest =>
      match match_svg text with
      | Some after => (repl ++ after)%string
      | None => String c (re_sub_svg repl rest)
      end
  end.

(** [os.path.join("models", path)]. *)
Definition models_join (path : string) : string :=
  match path with
  | String "/"%char _ => path
  | _ => ("models/" ++ path)%string
  end.

(** The file a token is rendered to. *)
Definition outputName (frontPath : string) : string :=
  models_join (re_sub_svg ".stl" frontPath).

(** The solid-modeling backend. [ScadRenderer().render_file(outputName,
    defines=None)] is a scope: the script is written inside it, and leaving
    it compiles the script to the output file. [render_file] is the outcome
    of the scope for an output file and the script written in it; entering
    and leaving the scope may raise. *)
Class Backend `{Externals} : Type := {
  render_file : string -> list Scad -> result unit
}.

Section Writer.
Context `{ShapeExternals} `{!Backend}.

(** Equality of a frozen dataclass: field by field. *)
Definition TokenGroup_eqb (g1 g2 : TokenGroup.t) : bool :=
  Color_eqb (TokenGroup.color g1) (TokenGroup.color g2)
  && list_eqb (object_eqb Shape_eqb) (TokenGroup.shapes g1) (TokenGroup.shapes g2)
  && String.eqb (TokenGroup.name g1) (TokenGroup.name g2).

Definition TokenGroupNames (group : TokenGroup.t) : GroupNames :=
  let name :=
    sanitize_identifier
      (TokenGroup.name group ++ "_" ++ display_name (TokenGroup.color group))%string in
  {| names_name := name;
     names_group := {| identifier := ("group_" ++ name)%string |};
     names_solid := {| identifier := ("solid_" ++ name)%string |} |}.

Definition TokenOutputWriter_init : TokenOutputWriter :=
  {| scad_writer := []; _shape_names := []; _group_names := [] |}.

Definition emit (s : Scad) (self : TokenOutputWriter) : TokenOutputWriter :=
  {| scad_writer := (scad_writer self ++ [s])%list;
     _shape_names := _shape_names self;
     _group_names := _group_names self |}.

(** [with opening: body]: the closing statement follows the body. *)
Definition scoped (opening : Scad) (body : TokenOutputWriter -> TokenOutputWriter)
    (self : TokenOutputWriter) : TokenOutputWriter :=
  emit close_block (body (emit opening self)).

Definition shape_names_getitem (shape : object Shape) (self : TokenOutputWriter)
    : ShapeNames * TokenOutputWriter :=
  let '(names, d) :=
    getitem (object_eqb Shape_eqb) (fun s => ShapeNames_init (oval s))
            (_shape_names self) shape in
  (names, {| scad_writer := scad_writer self;
             _shape_names := d;
             _group_names := _group_names self |}).

Definition group_names_getitem (group : object TokenGroup.t) (self : TokenOutputWriter)
    : GroupNames * TokenOutputWriter :=
  let '(names, d) :=
    getitem (object_eqb TokenGroup_eqb) (fun g => TokenGroupNames (oval g))
            (_group_names self) group in
  (names, {| scad_writer := scad_writer self;
             _shape_names := _shape_names self;
             _group_names := d |}).

Definition write_instance (self : TokenOutputWriter) (shape : object Shape)
    : TokenOutputWriter :=
  let '(shape_names, self) := shape_names_getitem shape self in
  emit (instance (clipped_shape shape_names)) self.

Definition write_group (self : TokenOutputWriter) (group : object TokenGroup.t)
    : TokenOutputWriter :=
  let '(names, self) := group_names_getitem group self in
  scoped (open_define_module (names_group names))
    (fun self => fold_left write_instance (TokenGroup.shapes (oval group)) self)
    self.

Definition write_groups (groups : list (object TokenGroup.t))
    (self : TokenOutputWriter) : TokenOutputWriter :=
  let self := emit blank_line self in
  let self := emit (comment "Groups") self in
  fold_left write_group groups self.

(** [conditional_context(condition, context, None)]: the body runs inside
    the context when the condition holds, and bare otherwise. *)
Definition conditional_context (condition : bool) (context : Scad)
    (body : TokenOutputWriter -> TokenOutputWriter)
    (self : TokenOutputWriter) : TokenOutputWriter :=
  if condition then scoped context body self else body self.

Definition render_base (writer : TokenOutputWriter) : TokenOutputWriter :=
  let writer := emit blank_line writer in
  let writer := emit (comment "token base") writer in
  scoped (open_translate [PyFloat 15.875; PyFloat (-15.875); PyFloat (-2.64)])
    (scoped open_difference
       (fun writer =>
          let writer := emit (print "cylinder(h=2.64, r=16, $fn=120);") writer in
          let writer :=
            scoped (open_translate [PyInt 0; PyInt 0; PyInt (-1)])
              (emit (print "cylinder(h=1.48, r=14.4, $fn=120);")) writer in
          let writer :=
            scoped (open_translate [PyInt 0; PyInt 0; PyFloat 2.16])
              (emit (print "cylinder(h=1.48, r=14.4, $fn=120);")) writer in
          scoped (open_translate [PyInt 0; PyInt 0; PyFloat 1.2])
            (emit (print "cylinder(h=0.24, r=13.6, $fn=120);")) writer))
    writer.

(** The body of [render_faces], with its three local constants as
    arguments. *)
Definition render_faces_with (thickness overlay_thickness : float) (flip : option bool)
    (writer : TokenOutputWriter) (scene_front scene_back : Scene) : TokenOutputWriter :=
  let flip_value := match flip with Some b => b | None => false end in
  let writer := emit (write_points_and_paths (scene_shapes scene_front)) writer in
  let writer := emit (write_shapes (scene_shapes scene_front)) writer in
  let writer := emit (write_clipped_shapes (scene_shapes scene_front)) writer in
  let writer := write_groups (scene_groups scene_front) writer in
  let writer := emit (write_solids (scene_groups scene_front) (PyFloat thickness)) writer in
  let writer :=
    conditional_context (negb (TokenShape.is_None flip)) (open_flip flip_value)
      (emit (instantiate_groups (scene_groups scene_front) (PyInt 0))) writer in
  let writer := emit (write_points_and_paths (scene_shapes scene_back)) writer in
  let writer := emit (write_shapes (scene_shapes scene_back)) writer in
  let writer := emit (write_clipped_shapes (scene_shapes scene_back)) writer in
  let writer := write_groups (scene_groups scene_back) writer in
  let writer := emit (write_solids (scene_groups scene_back) (PyFloat thickness)) writer in
  conditional_context (negb (TokenShape.is_None flip)) (open_flip flip_value)
    (emit (instantiate_groups (scene_groups scene_back) (PyFloat 1.84))) writer.

Definition render_faces : TokenOutputWriter -> Scene -> Scene -> TokenOutputWriter :=
  render_faces_with 0.72 0.24 (Some false).

(** [os.path.join("svgs", path)]: an absolute second component stands
    alone. *)
Definition svgs_join (path : string) : string :=
  match path with
  | String "/"%char _ => path
  | _ => ("svgs/" ++ path)%string
  end.

(** The two scenes of a token and the writer after its script is written
    and rendered. *)
Definition make_amiibozo (frontPath backPath : string)
    : result (Scene * Scene * TokenOutputWriter) :=
  front <- TokenScene.create_scene 0 (svgs_join frontPath) false ;;
  let scene_front := fst front in
  back <- TokenScene.create_scene (TokenScene.scene_size scene_front)
                                  (svgs_join backPath) true ;;
  let scene_back := fst back in
  let outputName := outputName frontPath in
  let writer := TokenOutputWriter_init in
  let writer := render_base writer in
  let writer := render_faces writer scene_front scene_back in
  _ <- render_file outputName (scad_writer writer) ;;
  Ok (scene_front, scene_back, writer).

(** The module names a script defines, and the offsets at which it
    instantiates groups, in order. *)
Definition defined_modules (script : list Scad) : list Identifier :=
  flat_map (fun s => match s with open_define_module id => [id] | _ => [] end) script.

Definition instantiations (script : list Scad)
    : list (list (object TokenGroup.t) * PyNum) :=
  flat_map (fun s => match s with
                     | instantiate_groups groups offset => [(groups, offset)]
                     | _ => []
                     end) script.

End Writer.

(** ** The batch *)

(** A series of the configuration, as [json.loads] returns it: an object
    that may lack a key. *)
Record Series : Type := {
  frontsides : option (list string);
  backside : option string
}.

Inductive main_exn : Type :=
| KeyError (key : string)
| TokenError (e : exn).

Section Main.
Context `{ShapeExternals} `{!Backend}.

(** What [make_amiibozo] leaves behind: the file rendered and the script
    given to the renderer. *)
Definition make_amiibozo_output (frontPath backPath : string)
    : result (string * list Scad) :=
  token <- make_amiibozo frontPath backPath ;;
  Ok (outputName frontPath, scad_writer (snd token)).

(** The inner loop of the main program: [series['backside']] is looked up
    once per front side. The answer is the renderings so far, in order, and
    the exception that ended the loop, if any. *)
Fixpoint main_fronts (series : Series) (fronts : list string)
    (rendered : list (string * list Scad))
    : list (string * list Scad) * option main_exn :=
  match fronts with
  | [] => (rendered, None)
  | front :: rest =>
      match backside series with
      | None => (rendered, Some (KeyError "backside"))
      | Some back =>
          match make_amiibozo_output front back with
          | Ok output => main_fronts series rest (rendered ++ [output])
          | Raise e => (rendered, Some (TokenError e))
          end
      end
  end.

Fixpoint main_series (all : list Series) (rendered : list (string * list Scad))
    : list (string * list Scad) * option main_exn :=
  match all with
  | [] => (rendered, None)
  | series :: rest =>
      match frontsides series with
      | None => (rendered, Some (KeyError "frontsides"))
      | Some fronts =>
          match main_fronts series fronts rendered with
          | (rendered, None) => main_series rest rendered
          | stopped => stopped
          end
      end
  end.

(** The main program on the parsed configuration; [data_series] is
    [data['series']], absent when the key is. *)
Definition main (data_series : option (list Series))
    : list (string * list Scad) * option main_exn :=
  match data_series with
  | None => ([], Some (KeyError "series"))
  | Some all => main_series all []
  end.

End Main.

(** ** A concrete set of collaborators

    Styles are lists of declarations, colors are their own text, and the
    artwork files are a small table. The general theorems below hold for
    every set of collaborators; this one runs them. *)

Module Sample.

Fixpoint lookup_declaration (style : list (string * string)) (key : string)
    : option string :=
  match style with
  | [] => None
  | (k, v) :: rest => if String.eqb k key then Some v else lookup_declaration rest key
  end.

Definition is_identifier_char (c : ascii) : bool :=
  let n := nat_of_ascii c in
  (Nat.leb 48 n && Nat.leb n 57) || (Nat.leb 65 n && Nat.leb n 90)
  || (Nat.leb 97 n && Nat.leb n 122) || Nat.eqb n 95.

Fixpoint replace_other_chars (s : string) : string :=
  match s with
  | EmptyString => EmptyString
  | String c rest =>
      String (if is_identifier_char c then c else "_"%char) (replace_other_chars rest)
  end.

Definition mk_path (id : string) (style : list (string * string))
    (segments : list (list SvgPoint)) : SvgPath (list (string * string)) :=
  {| svg_id := id; svg_style := style; svg_segments := fun _ => segments |}.

Definition pt (x y : float) : SvgPoint := {| svg_x := x; svg_y := y |}.

(** One path with a single point on the mirror axis, filled red. *)
Definition dot_path : SvgPath (list (string * string)) :=
  mk_path "dot" [("fill", "#ff0000")] [[pt 45 10]].

(** A triangle, filled red; a second file has a square in the same
    color. *)
Definition triangle_path : SvgPath (list (string * string)) :=
  mk_path "tri" [("fill", "#ff0000")] [[pt 10 20; pt 30 20; pt 20 40]].

Definition square_path : SvgPath (list (string * string)) :=
  mk_path "sq" [("fill", "#ff0000")] [[pt 10 10; pt 20 10; pt 20 20; pt 10 20]].

Definition blue_path : SvgPath (list (string * string)) :=
  mk_path "blue" [("fill", "#0000ff")] [[pt 1 1; pt 2 1; pt 2 2]].

Definition files (file_name : string) : result (list (SvgPath (list (string * string)))) :=
  if String.eqb file_name "svgs/dot.svg" then Ok [dot_path]
  else if String.eqb file_name "svgs/front.svg" then Ok [triangle_path; blue_path; square_path]
  else if String.eqb file_name "svgs/back.svg" then Ok [square_path]
  else Raise (ValueError "no such file").

Definition externals : Externals :=
  {| Style := list (string * string);
     extract_value := lookup_declaration;
     Color := string;
     Color_from_html := fun text => Ok text;
     Color_eqb := String.eqb;
     Color_eqb_spec := String.eqb_spec;
     display_name := fun c => c;
     delta_e := fun _ _ => 0%float;
     sanitize_identifier := replace_other_chars;
     svg_parse_flatten := files |}.

Definition shape_eqb (s1 s2 : Shape_ string) : bool :=
  String.eqb (shape_name s1) (shape_name s2)
  && String.eqb (shape_color s1) (shape_color s2)
  && list_eqb (list_eqb Point_eqb)
       (paths (shape_polygon s1)) (paths (shape_polygon s2)).

Definition shape_names (s : Shape_ string) : string :=
  replace_other_chars (shape_name s).

Definition shape_externals : @ShapeExternals externals :=
  @Build_ShapeExternals externals shape_eqb string shape_names
    (fun n => {| identifier := ("clipped_shape_" ++ n)%string |}).

(** A backend that compiles every script. *)
Definition backend : @Backend externals :=
  @Build_Backend externals (fun _ _ => Ok tt).

End Sample.

(** The same collaborators over a folder that also holds an artwork with a
    stroked path after a sound one. *)
Module Stroked.

Definition outline_path : SvgPath (list (string * string)) :=
  Sample.mk_path "outline" [("fill", "#00ff00"); ("stroke", "#000000")]
    [[Sample.pt 1 1; Sample.pt 2 1; Sample.pt 2 2]].

Definition files (file_name : string) : result (list (SvgPath (list (string * string)))) :=
  if String.eqb file_name "svgs/outlined.svg"
  then Ok [Sample.triangle_path; outline_path]
  else Sample.files file_name.

Definition externals : Externals :=
  {| Style := list (string * string);
     extract_value := Sample.lookup_declaration;
     Color := string;
     Color_from_html := fun text => Ok text;
     Color_eqb := String.eqb;
     Color_eqb_spec := String.eqb_spec;
     display_name := fun c => c;
     delta_e := fun _ _ => 0%float;
     sanitize_identifier := Sample.replace_other_chars;
     svg_parse_flatten := files |}.

Definition shape_externals : @ShapeExternals externals :=
  @Build_ShapeExternals externals Sample.shape_eqb string Sample.shape_names
    (fun n => {| identifier := ("clipped_shape_" ++ n)%string |}).

End Stroked.

(** * The vocabulary of the properties *)

(** ** Sampling *)

(** The emitted point of a native point, for a given scale factor. *)
Definition scaled_point (factor : float) (mirror : bool) (p : SvgPoint) : Point :=
  {| point_x := ((if mirror then 90 - svg_x p else svg_x p) * factor)%float;
     point_y := (svg_y p * factor)%float |}.

Definition scaled_paths (factor : float) (mirror : bool)
    (segments : list (list SvgPoint)) : list (list Point) :=
  map (fun segment => map (scaled_point factor mirror)
                          (filter_repetition SvgPoint_eqb segment))
      segments.

(** The native abscissa a point is computed from. *)
Definition native_x (reverse : bool) (p : SvgPoint) : float :=
  if reverse then (90 - svg_x p)%float else svg_x p.

(** The exact value of a finite float, [n * 2^e], as the pair [(n, e)]. *)
Definition exact_value (f : float) : option (Z * Z) :=
  match Prim2SF f with
  | S754_zero _ => Some (0, 0)%Z
  | S754_finite s m e => Some (if s then Zneg m else Zpos m, e)
  | _ => None
  end.

(** [k] is an integer nearest to the exact value of the finite float [q],
    the even one of the two when [q] lies half way between them. *)
Definition nearest_integer (q : float) (k : Z) : Prop :=
  match exact_value q with
  | Some (n, e) =>
      if (0 <=? e)%Z then k = (n * 2 ^ e)%Z
      else (Z.abs (2 * (n - k * 2 ^ (- e))) <= 2 ^ (- e))%Z
           /\ (Z.abs (2 * (n - k * 2 ^ (- e))) = 2 ^ (- e) -> Z.even k = true)%Z
  | None => False
  end.

(** [c] is [v] snapped to the step [S] as the program computes it: the
    float product of [S] and the integer nearest to the float quotient
    [v / S]. *)
Definition rounded_multiple (S v c : float) : Prop :=
  exists (k : Z) (kf : float),
    nearest_integer (v / S)%float k /\ float_of_int k = Ok kf /\ c = (S * kf)%float.

(** The value of [c] is [k] times the value of [S], in exact arithmetic. *)
Definition exact_multiple (S c : float) (k : Z) : Prop :=
  match exact_value S, exact_value c with
  | Some (ns, es), Some (nc, ec) =>
      (nc * 2 ^ (ec - Z.min ec es) = k * (ns * 2 ^ (es - Z.min ec es)))%Z
  | _, _ => False
  end.

(** [a] times the value of [x] is less than [b] times the value of [y], in
    exact arithmetic. *)
Definition exact_scaled_ltb (a : Z) (x : float) (b : Z) (y : float) : bool :=
  match exact_value x, exact_value y with
  | Some (nx, ex), Some (ny, ey) =>
      (a * (nx * 2 ^ (ex - Z.min ex ey)) <? b * (ny * 2 ^ (ey - Z.min ex ey)))%Z
  | _, _ => false
  end.

(** [c] is [v] snapped to the step [S]: [S] times the integer nearest to
    [v / S]. *)
Definition snapped (S v c : float) : Prop :=
  exists (k : Z) (kf : float),
    py_round (v / S)%float = Ok k /\ float_of_int k = Ok kf /\ c = (S * kf)%float.

(** No two consecutive points of a path are equal when this is false. *)
Fixpoint has_consecutive_equal (points : list Point) : bool :=
  match points with
  | p :: (q :: _) as rest => Point_eqb p q || has_consecutive_equal rest
  | _ => false
  end.

Section StyleVocabulary.
Context `{Externals}.

(** The styles that are only to be warned about. *)
Definition unsupported_fill_rule (style : Style) : bool :=
  match extract_value style "fill-rule" with
  | Some rule => negb (String.eqb rule "evenodd")
  | None => false
  end.

Definition stroked (style : Style) : bool :=
  match extract_value style "stroke" with
  | Some stroke => negb (String.eqb stroke "none")
  | None => false
  end.

(** The classified color of a shape: the mapping's answer, or the shape's
    own color when there is no mapping. *)
Definition classified (color_mapping : option (Color -> Color))
    (shape : object Shape) : Color :=
  match color_mapping with
  | None => TokenGroup.identity
  | Some f => f
  end (shape_color (oval shape)).

(** The color mapping a scene is grouped with. *)
Definition palette_mapping (available_colors : option ColorSet)
    : option (Color -> Color) :=
  match available_colors with
  | Some cs => if colorset_bool cs then Some (closest cs) else None
  | None => None
  end.

End StyleVocabulary.

(** ** Partitions *)

(** The distinct keys of a list, in order of first occurrence. *)
Fixpoint first_occurrences {K : Type} (eqb : K -> K -> bool) (l : list K) : list K :=
  match l with
  | [] => []
  | k :: l' => k :: filter (fun k' => negb (eqb k k')) (first_occurrences eqb l')
  end.

Section Partition.
Context {K V : Type} (eqb : K -> K -> bool) (key : V -> K).

(** The items of a key, in input order, and the stable partition of a list. *)
Definition members (items : list V) (k : K) : list V :=
  filter (fun v => eqb k (key v)) items.

Definition grouped (items : list V) : list (K * list V) :=
  map (fun k => (k, members items k)) (first_occurrences eqb (map key items)).

Definition key_in (ks : list K) (v : V) : bool :=
  existsb (fun k => eqb k (key v)) ks.

End Partition.

(** ** Sessions of the registry *)

Section Sessions.
Context {K V : Type} (factory : K -> V) (live : K -> Prop).

(** A dict is well formed when its keys are live and every value is the
    factory's value for its key. *)
Definition dict_wf (d : list (K * V)) : Prop :=
  Forall (fun kv => live (fst kv) /\ snd kv = factory (fst kv)) d.

End Sessions.

(** Objects are consistent when one identity stands for one value. *)
Definition consistent {A : Type} (l : list (object A)) : Prop :=
  forall a b, In a l -> In b l -> oid a = oid b -> oval a = oval b.

(** The comparison of keys by identity alone. *)
Definition identity_eqb {A : Type} (a b : object A) : bool := (oid a =? oid b)%nat.

Section ScriptVocabulary.
Context `{ShapeExternals}.

(** The key comparisons a registry of groups may use: one that finds a key
    itself, and takes two keys for one only when they are one object or
    equal in value. Comparison by identity, comparison by value and a dict's
    comparison, by identity and then by value, are of this kind. *)
Definition group_keying
    (key_eqb : object TokenGroup.t -> object TokenGroup.t -> bool) : Prop :=
  (forall k, key_eqb k k = true)
  /\ (forall a b, key_eqb a b = true ->
                  oid a = oid b \/ TokenGroup_eqb (oval a) (oval b) = true).

(** The names a session of group references returns. *)
Definition group_lookups (d : list (object TokenGroup.t * GroupNames))
    (groups : list (object TokenGroup.t))
    : list GroupNames * list (object TokenGroup.t * GroupNames) :=
  lookups (object_eqb TokenGroup_eqb) (fun g => TokenGroupNames (oval g)) d groups.

(** A statement other than a module definition or an instantiation of
    groups changes neither list. *)
Definition plain (s : Scad) : bool :=
  match s with
  | open_define_module _ | instantiate_groups _ _ => false
  | _ => true
  end.

(** The module a group is written as. *)
Definition group_module (group : TokenGroup.t) : Identifier :=
  {| identifier :=
       ("group_"
        ++ sanitize_identifier
             (TokenGroup.name group ++ "_" ++ display_name (TokenGroup.color group)))%string |}.

End ScriptVocabulary.

(** ** Blocks of the script *)

(** The statements that open a block. *)
Definition is_open {Color : Type} (s : Scad_ Color) : bool :=
  match s with
  | open_translate _ | open_difference | open_define_module _ | open_flip _ => true
  | _ => false
  end.

(** The nesting depth a script ends at when it starts at [depth]; there is
    none when the script closes a block that is not open. *)
Fixpoint depth_after {Color : Type} (depth : nat) (script : list (Scad_ Color))
    : option nat :=
  match script with
  | [] => Some depth
  | close_block :: rest =>
      match depth with
      | O => None
      | S d => depth_after d rest
      end
  | s :: rest => depth_after (if is_open s then S depth else depth) rest
  end.

Section ScriptShape.
Context `{ShapeExternals}.

(** The module of one group: its definition, one instance per member shape,
    its end. *)
Definition group_block (group : object TokenGroup.t) : list Scad :=
  open_define_module (group_module (oval group))
  :: map (fun shape : object Shape =>
            instance (clipped_shape (ShapeNames_init (oval shape))))
         (TokenGroup.shapes (oval group))
  ++ [close_block].

(** The statements of one face, instantiated at [offset]. *)
Definition face_script (scene : Scene) (offset : PyNum) : list Scad :=
  [ write_points_and_paths (scene_shapes scene);
    write_shapes (scene_shapes scene);
    write_clipped_shapes (scene_shapes scene);
    blank_line;
    comment "Groups" ]
  ++ flat_map group_block (scene_groups scene)
  ++ [ write_solids (scene_groups scene) (PyFloat 0.72);
       open_flip false;
       instantiate_groups (scene_groups scene) offset;
       close_block ].

(** A writer has only grown: its script by whole blocks, which end at the
    depth they start at, and its two registries by entries at their end. *)
Definition grows (before after : TokenOutputWriter) : Prop :=
  (exists added, scad_writer after = scad_writer before ++ added
                 /\ forall depth, depth_after depth added = Some depth)
  /\ (exists added, _shape_names after = _shape_names before ++ added)
  /\ (exists added, _group_names after = _group_names before ++ added).

(** The registries of a writer hold shapes and groups of two given lists
    only, each with the names its factory computes. *)
Definition registries_wf (live_shapes : list (object Shape))
    (live_groups : list (object TokenGroup.t)) (writer : TokenOutputWriter) : Prop :=
  dict_wf (fun shape : object Shape => ShapeNames_init (oval shape))
          (fun shape => In shape live_shapes) (_shape_names writer)
  /\ dict_wf (fun group : object TokenGroup.t => TokenGroupNames (oval group))
             (fun group => In group live_groups) (_group_names writer).

(** An artwork file can be sampled without snapping: it parses, and every
    path has a supported style and a fill that is a color. *)
Definition samples (file_name : string) : bool :=
  match svg_parse_flatten file_name with
  | Ok svg_paths =>
      forallb (fun svg_path : SvgPath Style =>
                 negb (unsupported_fill_rule (svg_style svg_path)
                       || stroked (svg_style svg_path))
                 && is_ok (Color_from_html (TokenShape.fill_text (svg_style svg_path))))
              svg_paths
  | Raise _ => false
  end.

(** The front and back side of every token of a configuration, in order. *)
Definition jobs (all : list Series) : list (string * string) :=
  flat_map (fun series =>
              match frontsides series, backside series with
              | Some fronts, Some back => map (fun front => (front, back)) fronts
              | _, _ => []
              end) all.

End ScriptShape.

(** ** Sample inputs *)

(** The group of a single red point, as an object of the front face and as
    one of the back face. *)
Definition front_dot_group : object (TokenGroup.group string) :=
  {| oid := 1;
     oval := {| TokenGroup.name := "svgs/dot.svg"; TokenGroup.color := "#ff0000";
                TokenGroup.shapes := [] |} |}.

Definition back_dot_group : object (TokenGroup.group string) :=
  {| oid := 3;
     oval := {| TokenGroup.name := "svgs/dot.svg"; TokenGroup.color := "#ff0000";
                TokenGroup.shapes := [] |} |}.

(** * Properties *)

(** ** Fallible computations *)

Lemma bind_Ok_inv {A B : Type} (m : result A) (k : A -> result B) (b : B) :
  bind m k = Ok b -> exists a, m = Ok a /\ k a = Ok b.
Proof.
  destruct m as [a | e]; simpl; intros Hb.
  - exists a. split; [reflexivity | exact Hb].
  - discriminate Hb.
Qed.

Lemma mapM_total {A B : Type} (f : A -> result B) (g : A -> B) (l : list A) :
  (forall a, In a l -> f a = Ok (g a)) -> mapM f l = Ok (map g l).
Proof.
  induction l as [| a l IH]; intros Hf; simpl.
  - reflexivity.
  - rewrite (Hf a (or_introl eq_refl)). simpl.
    rewrite IH by (intros a' Ha'; apply Hf; right; exact Ha').
    reflexivity.
Qed.

Lemma mapM_Ok_Forall2 {A B : Type} (f : A -> result B) (l : list A) (l' : list B) :
  mapM f l = Ok l' -> Forall2 (fun a b => f a = Ok b) l l'.
Proof.
  revert l'. induction l as [| a l IH]; intros l' Hm; simpl in Hm.
  - injection Hm as <-. constructor.
  - apply bind_Ok_inv in Hm. destruct Hm as (b & Hb & Hm).
    apply bind_Ok_inv in Hm. destruct Hm as (bs & Hbs & Hm).
    injection Hm as <-. constructor; [exact Hb | apply IH; exact Hbs].
Qed.

Lemma Forall2_Forall_r {A B : Type} (R : A -> B -> Prop) (P : B -> Prop)
    (l : list A) (l' : list B) :
  (forall a b, R a b -> P b) -> Forall2 R l l' -> Forall P l'.
Proof.
  intros HRP HF. induction HF; constructor; eauto.
Qed.

(** ** Sampling *)

Section SamplingFacts.
Context `{Externals}.

(** What a successful sampling returns: the shape's paths are the sampled
    segments, one by one. *)
Lemma from_svg_path_paths (svg_path : SvgPath Style) (precision : PyNum)
    (snap : option float) (reverse : bool) (shape : Shape) (warnings : list string) :
  TokenShape.from_svg_path svg_path precision snap reverse = Ok (shape, warnings) ->
  mapM (TokenShape.path snap reverse) (svg_segments svg_path precision)
  = Ok (paths (shape_polygon shape)).
Proof.
  unfold TokenShape.from_svg_path. intros Hs.
  apply bind_Ok_inv in Hs. destruct Hs as (w1 & _ & Hs).
  apply bind_Ok_inv in Hs. destruct Hs as (w2 & _ & Hs).
  apply bind_Ok_inv in Hs. destruct Hs as (fill & _ & Hs).
  apply bind_Ok_inv in Hs. destruct Hs as (ps & Hps & Hs).
  injection Hs as <- _. simpl. exact Hps.
Qed.

Lemma point_unsnapped (reverse : bool) (p : SvgPoint) :
  TokenShape.point None reverse p = Ok (scaled_point (25.4e-3 / 72) reverse p).
Proof.
  unfold TokenShape.point, scaled_point. destruct reverse; reflexivity.
Qed.

Lemma unsnapped_paths (reverse : bool) (segments : list (list SvgPoint)) :
  mapM (TokenShape.path None reverse) segments
  = Ok (scaled_paths (25.4e-3 / 72) reverse segments).
Proof.
  apply mapM_total. intros segment _. unfold TokenShape.path.
  apply mapM_total. intros p _. apply point_unsnapped.
Qed.

(** C1 (as amended): sampled without snapping and without mirroring, every
    emitted coordinate is the native coordinate times 25.4e-3/72, the
    metres-per-point factor; the points are those that remain after the
    consecutive duplicates of the native segment are dropped. *)
Theorem unsnapped_coordinates_scaled_by_px
    (svg_path : SvgPath Style) (precision : PyNum) (shape : Shape)
    (warnings : list string) :
  TokenShape.from_svg_path svg_path precision None false = Ok (shape, warnings) ->
  paths (shape_polygon shape)
  = map (fun segment =>
           map (fun p => {| point_x := (svg_x p * (25.4e-3 / 72))%float;
                            point_y := (svg_y p * (25.4e-3 / 72))%float |})
               (filter_repetition SvgPoint_eqb segment))
        (svg_segments svg_path precision).
Proof.
  intros Hs. apply from_svg_path_paths in Hs.
  rewrite unsnapped_paths in Hs. injection Hs as <-. reflexivity.
Qed.

(** C2 (as amended): sampled with mirroring and without snapping, a native
    point (x, y) is emitted as ((90 - x) * 25.4e-3/72, y * 25.4e-3/72): the
    reflection about the width 90 comes first, the scaling to metres after
    it. *)
Theorem mirrored_coordinates_scaled_by_px
    (svg_path : SvgPath Style) (precision : PyNum) (shape : Shape)
    (warnings : list string) :
  TokenShape.from_svg_path svg_path precision None true = Ok (shape, warnings) ->
  paths (shape_polygon shape)
  = map (fun segment =>
           map (fun p => {| point_x := ((90 - svg_x p) * (25.4e-3 / 72))%float;
                            point_y := (svg_y p * (25.4e-3 / 72))%float |})
               (filter_repetition SvgPoint_eqb segment))
        (svg_segments svg_path precision).
Proof.
  intros Hs. apply from_svg_path_paths in Hs.
  rewrite unsnapped_paths in Hs. injection Hs as <-. reflexivity.
Qed.

End SamplingFacts.

(** ** Snapping *)

(** Rounding to nearest: twice the distance from [m] to [d] times the
    rounded quotient is at most [d]. *)
Lemma round_half_even_nearest (m d : Z) :
  (0 < d)%Z -> (Z.abs (2 * (m - d * round_half_even m d)) <= d)%Z.
Proof.
  intros Hd. unfold round_half_even.
  pose proof (Z.div_mod m d ltac:(lia)) as Hm.
  pose proof (Z.mod_pos_bound m d Hd) as Hr.
  set (q := (m / d)%Z) in *. set (r := (m mod d)%Z) in *.
  destruct (2 * r ?= d)%Z eqn:Hc.
  - apply Z.compare_eq in Hc. destruct (Z.even q); nia.
  - rewrite Z.compare_lt_iff in Hc. nia.
  - rewrite Z.compare_gt_iff in Hc. nia.
Qed.

(** Half way between two integers the even one is taken. *)
Lemma round_half_even_tie (m d : Z) :
  (0 < d)%Z ->
  (Z.abs (2 * (m - d * round_half_even m d)) = d)%Z ->
  Z.even (round_half_even m d) = true.
Proof.
  intros Hd. unfold round_half_even.
  pose proof (Z.div_mod m d ltac:(lia)) as Hm.
  pose proof (Z.mod_pos_bound m d Hd) as Hr.
  set (q := (m / d)%Z) in *. set (r := (m mod d)%Z) in *.
  destruct (2 * r ?= d)%Z eqn:Hc.
  - intros _. destruct (Z.even q) eqn:Hq; [exact Hq |].
    rewrite Z.even_add, Hq. reflexivity.
  - rewrite Z.compare_lt_iff in Hc. intros Ht. exfalso. nia.
  - rewrite Z.compare_gt_iff in Hc. intros Ht. exfalso. nia.
Qed.

(** What [round] returns is an integer nearest to the exact value of its
    argument. *)
Lemma py_round_nearest (q : float) (k : Z) :
  py_round q = Ok k -> nearest_integer q k.
Proof.
  unfold py_round, nearest_integer, exact_value.
  destruct (Prim2SF q) as [s | s | | s m e]; intros Hk; try discriminate Hk;
    injection Hk as <-.
  - reflexivity.
  - destruct e as [| p | p].
    + destruct s; simpl; lia.
    + destruct s.
      * change (- (Z.pos m * 2 ^ Z.pos p) = - Z.pos m * 2 ^ Z.pos p)%Z. ring.
      * reflexivity.
    + assert (Hd : (0 < 2 ^ Z.pos p)%Z) by (apply Z.pow_pos_nonneg; lia).
      pose proof (round_half_even_nearest (Z.pos m) (2 ^ Z.pos p) Hd) as Hn.
      pose proof (round_half_even_tie (Z.pos m) (2 ^ Z.pos p) Hd) as Ht.
      set (d := (2 ^ Z.pos p)%Z) in *.
      set (a := round_half_even (Z.pos m) d) in *.
      destruct s.
      * change ((Z.abs (2 * (- Z.pos m - - a * d)) <= d)%Z
                /\ ((Z.abs (2 * (- Z.pos m - - a * d)) = d)%Z -> Z.even (- a) = true)).
        replace (2 * (- Z.pos m - - a * d))%Z with (- (2 * (Z.pos m - d * a)))%Z by ring.
        rewrite Z.abs_opp, Z.even_opp. split; [exact Hn | exact Ht].
      * change ((Z.abs (2 * (Z.pos m - a * d)) <= d)%Z
                /\ ((Z.abs (2 * (Z.pos m - a * d)) = d)%Z -> Z.even a = true)).
        replace (2 * (Z.pos m - a * d))%Z with (2 * (Z.pos m - d * a))%Z by ring.
        split; [exact Hn | exact Ht].
Qed.

Lemma snapped_rounded_multiple (S v c : float) :
  snapped S v c -> rounded_multiple S v c.
Proof.
  intros (k & kf & Hk & Hkf & Hc). exists k, kf.
  split; [apply py_round_nearest; exact Hk | split; assumption].
Qed.

Lemma positive_float_truthy (S : float) :
  (0 <? S)%float = true -> float_truthy S = true.
Proof.
  unfold float_truthy. rewrite FloatAxioms.ltb_spec, FloatAxioms.eqb_spec.
  change (Prim2SF 0) with (S754_zero false).
  destruct (Prim2SF S) as [s | s | | s m e]; simpl; try discriminate; try reflexivity.
  all: destruct s; simpl; try discriminate; reflexivity.
Qed.

Lemma length_snapped (S v c : float) :
  float_truthy S = true ->
  TokenShape.length (Some S) v = Ok c ->
  snapped S (v * (25.4e-3 / 72))%float c.
Proof.
  intros HS. unfold TokenShape.length. rewrite HS. intros Hl.
  apply bind_Ok_inv in Hl. destruct Hl as (k & Hk & Hl).
  apply bind_Ok_inv in Hl. destruct Hl as (kf & Hkf & Hl).
  injection Hl as <-. exists k, kf. repeat split; assumption.
Qed.

Lemma point_snapped (S : float) (reverse : bool) (p : SvgPoint) (q : Point) :
  float_truthy S = true ->
  TokenShape.point (Some S) reverse p = Ok q ->
  snapped S (native_x reverse p * (25.4e-3 / 72))%float (point_x q)
  /\ snapped S (svg_y p * (25.4e-3 / 72))%float (point_y q).
Proof.
  intros HS. unfold TokenShape.point. intros Hp.
  apply bind_Ok_inv in Hp. destruct Hp as (x & Hx & Hp).
  apply bind_Ok_inv in Hp. destruct Hp as (y & Hy & Hp).
  injection Hp as <-. simpl. split.
  - unfold native_x. destruct reverse; apply length_snapped; assumption.
  - apply length_snapped; assumption.
Qed.

Section SnappingFacts.
Context `{Externals}.

(** Each axis of each emitted point is the native coordinate, scaled, then
    rounded to the nearest multiple of the step. *)
Lemma snapped_paths (svg_path : SvgPath Style) (precision : PyNum) (S : float)
    (reverse : bool) (shape : Shape) (warnings : list string) :
  float_truthy S = true ->
  TokenShape.from_svg_path svg_path precision (Some S) reverse = Ok (shape, warnings) ->
  Forall2
    (Forall2 (fun p q =>
                snapped S (native_x reverse p * (25.4e-3 / 72))%float (point_x q)
                /\ snapped S (svg_y p * (25.4e-3 / 72))%float (point_y q)))
    (map (filter_repetition SvgPoint_eqb) (svg_segments svg_path precision))
    (paths (shape_polygon shape)).
Proof.
  intros HS Hs. apply from_svg_path_paths in Hs. apply mapM_Ok_Forall2 in Hs.
  induction Hs as [| segment ps segments pss Hseg _ IH]; simpl; constructor.
  - unfold TokenShape.path in Hseg. apply mapM_Ok_Forall2 in Hseg.
    induction Hseg as [| p q l l' Hpq _ IH']; constructor.
    + apply point_snapped; assumption.
    + exact IH'.
  - exact IH.
Qed.

(** C9 (as amended): for every snap step S > 0, every coordinate that
    sampling with snapping emits is the float product of S and an integer k
    converted to a float, each axis on its own: k is the integer nearest to
    the float quotient of the scaled native coordinate by S, the even one at
    a tie, and that quotient is finite. The product and the quotient are
    rounded as every float operation is. *)
Theorem snapped_coordinates_are_rounded_products
    (svg_path : SvgPath Style) (precision : PyNum) (S : float)
    (reverse : bool) (shape : Shape) (warnings : list string) :
  (0 <? S)%float = true ->
  TokenShape.from_svg_path svg_path precision (Some S) reverse = Ok (shape, warnings) ->
  Forall2
    (Forall2 (fun p q =>
                rounded_multiple S (native_x reverse p * (25.4e-3 / 72))%float (point_x q)
                /\ rounded_multiple S (svg_y p * (25.4e-3 / 72))%float (point_y q)))
    (map (filter_repetition SvgPoint_eqb) (svg_segments svg_path precision))
    (paths (shape_polygon shape)).
Proof.
  intros HS Hs. apply positive_float_truthy in HS.
  pose proof (snapped_paths _ _ _ _ _ _ HS Hs) as HF.
  eapply Forall2_impl; [| exact HF].
  intros segment ps Hps. eapply Forall2_impl; [| exact Hps].
  intros p q [Hx Hy]. split; apply snapped_rounded_multiple; assumption.
Qed.

(** ** Warnings *)

Lemma logger_warning_raises (msg : string) :
  logger_warning msg = Raise (NameError "logger").
Proof. reflexivity. Qed.

(** Every path that should only be warned about stops the sampling: the
    name [logger] is bound nowhere in the module. *)
Lemma unsupported_style_raises (svg_path : SvgPath Style) (precision : PyNum)
    (snap : option float) (reverse : bool) :
  unsupported_fill_rule (svg_style svg_path) || stroked (svg_style svg_path) = true ->
  TokenShape.from_svg_path svg_path precision snap reverse = Raise (NameError "logger").
Proof.
  unfold unsupported_fill_rule, stroked, TokenShape.from_svg_path.
  destruct (extract_value (svg_style svg_path) "fill-rule") as [rule |];
    destruct (extract_value (svg_style svg_path) "stroke") as [stroke |];
    unfold TokenShape.is_None, TokenShape.opt_is; simpl orb;
    try destruct (String.eqb rule "evenodd"); try destruct (String.eqb stroke "none");
    simpl negb; cbv iota; rewrite ?logger_warning_raises; simpl bind;
    intros Hu; try reflexivity; discriminate Hu.
Qed.

End SnappingFacts.

(** ** Grouping *)

Section GroupByFacts.
Context {K V : Type} (eqb : K -> K -> bool).
Hypothesis eqb_spec : forall a b : K, reflect (a = b) (eqb a b).
Variable key : V -> K.

Lemma eqb_refl (a : K) : eqb a a = true.
Proof. destruct (eqb_spec a a); [reflexivity | contradiction]. Qed.

Lemma In_or_not (k : K) (l : list K) : In k l \/ ~ In k l.
Proof.
  induction l as [| a l IH]; simpl.
  - right. intros [].
  - destruct (eqb_spec a k) as [-> | Hne]; [left; left; reflexivity |].
    destruct IH as [Hin | Hnin]; [left; right; exact Hin |].
    right. intros [Heq | Hin]; [exact (Hne Heq) | exact (Hnin Hin)].
Qed.

Lemma first_occurrences_In (k : K) (l : list K) :
  In k (first_occurrences eqb l) <-> In k l.
Proof.
  induction l as [| a l IH]; simpl; [tauto |].
  rewrite filter_In, IH. split.
  - intros [Heq | [Hin _]]; [left; exact Heq | right; exact Hin].
  - intros [Heq | Hin]; [left; exact Heq |].
    destruct (eqb_spec a k) as [Heq | Hne]; [left; exact Heq |].
    right. split; [exact Hin | reflexivity].
Qed.

Lemma first_occurrences_NoDup (l : list K) : NoDup (first_occurrences eqb l).
Proof.
  induction l as [| a l IH]; simpl; constructor.
  - rewrite filter_In. intros [_ Hneg]. rewrite eqb_refl in Hneg. discriminate Hneg.
  - apply NoDup_filter. exact IH.
Qed.

Lemma first_occurrences_snoc_new (k : K) (l : list K) :
  ~ In k l -> first_occurrences eqb (l ++ [k]) = first_occurrences eqb l ++ [k].
Proof.
  induction l as [| a l IH]; simpl; intros Hnin; [reflexivity |].
  rewrite IH by (intros Hin; apply Hnin; right; exact Hin).
  rewrite filter_app. simpl.
  destruct (eqb_spec a k) as [Heq | _]; [exfalso; apply Hnin; left; exact Heq |].
  reflexivity.
Qed.

Lemma first_occurrences_snoc_old (k : K) (l : list K) :
  In k l -> first_occurrences eqb (l ++ [k]) = first_occurrences eqb l.
Proof.
  induction l as [| a l IH]; simpl; intros Hin; [contradiction |].
  f_equal. destruct (In_or_not k l) as [Hl | Hnl].
  - rewrite IH by exact Hl. reflexivity.
  - destruct Hin as [-> | Hl]; [| contradiction].
    rewrite first_occurrences_snoc_new by exact Hnl.
    rewrite filter_app. simpl. rewrite eqb_refl. simpl. apply app_nil_r.
Qed.

End GroupByFacts.

Section GroupBySpec.
Context {K V : Type} (eqb : K -> K -> bool).
Hypothesis eqb_spec : forall a b : K, reflect (a = b) (eqb a b).
Variable key : V -> K.

Lemma members_snoc (items : list V) (x : V) (k : K) :
  members eqb key (items ++ [x]) k = members eqb key items k ++ (if eqb k (key x) then [x] else []).
Proof.
  unfold members. rewrite filter_app. simpl. destruct (eqb k (key x)); reflexivity.
Qed.

Lemma members_nil (items : list V) (k : K) :
  ~ In k (map key items) -> members eqb key items k = [].
Proof.
  induction items as [| v items IH]; simpl; intros Hnin; [reflexivity |].
  destruct (eqb_spec k (key v)) as [Heq | _].
  - exfalso. apply Hnin. left. symmetry. exact Heq.
  - apply IH. intros Hin. apply Hnin. right. exact Hin.
Qed.

Lemma members_nonempty (items : list V) (k : K) :
  In k (map key items) -> members eqb key items k <> [].
Proof.
  intros Hin. apply in_map_iff in Hin. destruct Hin as (v & Hk & Hv).
  assert (Hm : In v (members eqb key items k)).
  { unfold members. apply filter_In. split; [exact Hv |].
    rewrite Hk. apply eqb_refl. exact eqb_spec. }
  intros Hnil. rewrite Hnil in Hm. exact Hm.
Qed.

Lemma dict_append_old (f : K -> list V) (ks : list K) (kx : K) (x : V) :
  NoDup ks -> In kx ks ->
  dict_append eqb (map (fun k => (k, f k)) ks) kx x
  = map (fun k => (k, f k ++ (if eqb k kx then [x] else []))) ks.
Proof.
  induction ks as [| a ks IH]; simpl; intros Hnd Hin; [contradiction |].
  inversion Hnd as [| a' ks' Ha Hks]; subst.
  destruct (eqb_spec a kx) as [-> | Hne].
  - f_equal. apply map_ext_in. intros k Hk.
    destruct (eqb_spec k kx) as [-> | _]; [contradiction |].
    rewrite app_nil_r. reflexivity.
  - rewrite app_nil_r. f_equal. apply IH; [exact Hks |].
    destruct Hin as [Heq | Hin]; [contradiction | exact Hin].
Qed.

Lemma dict_append_new (f : K -> list V) (ks : list K) (kx : K) (x : V) :
  ~ In kx ks ->
  dict_append eqb (map (fun k => (k, f k)) ks) kx x
  = map (fun k => (k, f k)) ks ++ [(kx, [x])].
Proof.
  induction ks as [| a ks IH]; simpl; intros Hnin; [reflexivity |].
  destruct (eqb_spec a kx) as [Heq | _]; [exfalso; apply Hnin; left; exact Heq |].
  f_equal. apply IH. intros Hin. apply Hnin. right. exact Hin.
Qed.

Lemma grouped_snoc (items : list V) (x : V) :
  dict_append eqb (grouped eqb key items) (key x) x = grouped eqb key (items ++ [x]).
Proof.
  unfold grouped. rewrite map_app. simpl.
  destruct (In_or_not eqb eqb_spec (key x) (map key items)) as [Hin | Hnin].
  - rewrite (first_occurrences_snoc_old eqb eqb_spec) by exact Hin.
    rewrite dict_append_old.
    + apply map_ext. intros k. rewrite members_snoc. reflexivity.
    + apply first_occurrences_NoDup. exact eqb_spec.
    + apply first_occurrences_In; [exact eqb_spec | exact Hin].
  - rewrite (first_occurrences_snoc_new eqb eqb_spec) by exact Hnin.
    rewrite dict_append_new
      by (intros Hin; apply Hnin; apply (first_occurrences_In eqb eqb_spec); exact Hin).
    rewrite map_app. simpl. f_equal.
    + apply map_ext_in. intros k Hk. rewrite members_snoc.
      destruct (eqb_spec k (key x)) as [Heq | _].
      * exfalso. apply Hnin. rewrite <- Heq.
        apply (first_occurrences_In eqb eqb_spec). exact Hk.
      * rewrite app_nil_r. reflexivity.
    + rewrite members_snoc, members_nil by exact Hnin.
      rewrite (eqb_refl eqb eqb_spec). reflexivity.
Qed.

Lemma group_by_from (items pre : list V) :
  fold_left (fun d item => dict_append eqb d (key item) item) items (grouped eqb key pre)
  = grouped eqb key (pre ++ items).
Proof.
  revert pre. induction items as [| x items IH]; intros pre; simpl.
  - rewrite app_nil_r. reflexivity.
  - rewrite grouped_snoc, IH, <- app_assoc. reflexivity.
Qed.

(** What [group_by] returns: one entry per distinct key, in order of first
    occurrence, holding the items of that key in input order. *)
Lemma group_by_grouped (items : list V) :
  group_by eqb items key = grouped eqb key items.
Proof. exact (group_by_from items []). Qed.

Lemma filter_split (p q : V -> bool) (l : list V) :
  (forall v, In v l -> p v = true -> q v = false) ->
  Permutation (filter (fun v => p v || q v) l) (filter p l ++ filter q l).
Proof.
  induction l as [| v l IH]; simpl; intros Hpq; [constructor |].
  assert (IH' := IH (fun w Hw => Hpq w (or_intror Hw))).
  destruct (p v) eqn:Hp; simpl.
  - rewrite (Hpq v (or_introl eq_refl) Hp). constructor. exact IH'.
  - destruct (q v); [| exact IH'].
    apply Permutation_cons_app. exact IH'.
Qed.

Lemma concat_members (items : list V) (ks : list K) :
  NoDup ks ->
  Permutation (List.concat (map (members eqb key items) ks)) (filter (key_in eqb key ks) items).
Proof.
  induction ks as [| a ks IH]; simpl; intros Hnd.
  - unfold key_in. simpl. induction items; simpl; [constructor | assumption].
  - inversion Hnd as [| a' ks' Ha Hks]; subst.
    etransitivity; [apply Permutation_app_head; apply IH; exact Hks |].
    symmetry. unfold key_in at 1. simpl. apply filter_split.
    intros v _ Hav. destruct (eqb_spec a (key v)) as [Heq | _]; [| discriminate Hav].
    unfold key_in. destruct (existsb (fun k => eqb k (key v)) ks) eqn:Hex; [| reflexivity].
    exfalso. apply existsb_exists in Hex. destruct Hex as (k & Hk & Hkv).
    destruct (eqb_spec k (key v)) as [Heq' | _]; [| discriminate Hkv].
    apply Ha. rewrite Heq, <- Heq'. exact Hk.
Qed.

Lemma filter_all (p : V -> bool) (l : list V) :
  (forall v, In v l -> p v = true) -> filter p l = l.
Proof.
  induction l as [| v l IH]; simpl; intros Hp; [reflexivity |].
  rewrite (Hp v (or_introl eq_refl)). f_equal.
  apply IH. intros w Hw. apply Hp. right. exact Hw.
Qed.

Lemma grouped_permutation (items : list V) :
  Permutation (List.concat (map snd (grouped eqb key items))) items.
Proof.
  unfold grouped. rewrite map_map. simpl.
  etransitivity.
  - apply concat_members. apply first_occurrences_NoDup. exact eqb_spec.
  - rewrite filter_all; [reflexivity |].
    intros v Hv. unfold key_in. apply existsb_exists. exists (key v). split.
    + apply (first_occurrences_In eqb eqb_spec). apply in_map. exact Hv.
    + apply eqb_refl. exact eqb_spec.
Qed.

End GroupBySpec.

Section ByColorFacts.
Context `{Externals}.

Lemma by_color_grouped (shapes : list (object Shape))
    (color_mapping : option (Color -> Color)) (name : string) :
  TokenGroup.by_color shapes color_mapping name
  = map (fun k => TokenGroup.create_group name k
                    (members Color_eqb (classified color_mapping) shapes k))
        (first_occurrences Color_eqb (map (classified color_mapping) shapes)).
Proof.
  unfold TokenGroup.by_color.
  change (fun shape : object Shape =>
            match color_mapping with
            | Some f => f
            | None => TokenGroup.identity
            end (shape_color (oval shape)))
    with (classified color_mapping).
  rewrite (group_by_grouped Color_eqb Color_eqb_spec). unfold grouped.
  rewrite map_map. reflexivity.
Qed.

Lemma by_color_colors (shapes : list (object Shape))
    (color_mapping : option (Color -> Color)) (name : string) :
  map TokenGroup.color (TokenGroup.by_color shapes color_mapping name)
  = first_occurrences Color_eqb (map (classified color_mapping) shapes).
Proof.
  rewrite by_color_grouped, map_map. simpl. apply map_id.
Qed.

Lemma by_color_In (shapes : list (object Shape))
    (color_mapping : option (Color -> Color)) (name : string) (g : TokenGroup.t) :
  In g (TokenGroup.by_color shapes color_mapping name) <->
  exists k, In k (map (classified color_mapping) shapes)
            /\ g = TokenGroup.create_group name k
                     (members Color_eqb (classified color_mapping) shapes k).
Proof.
  rewrite by_color_grouped, in_map_iff. split.
  - intros (k & Hg & Hk). exists k. split; [| symmetry; exact Hg].
    apply (first_occurrences_In Color_eqb Color_eqb_spec). exact Hk.
  - intros (k & Hk & Hg). exists k. split; [symmetry; exact Hg |].
    apply (first_occurrences_In Color_eqb Color_eqb_spec). exact Hk.
Qed.

(** The groups of a sequence of shapes are its stable partition by
    classified color. The group colors are the distinct classified colors in
    order of first occurrence; each group holds, in input order, exactly the
    shapes of its color; all groups together hold the input shapes, each as
    often as the input does (once, when the input shapes are distinct
    objects); and every input shape is a member of exactly one group. *)
Lemma by_color_partition (shapes : list (object Shape))
    (color_mapping : option (Color -> Color)) (name : string) :
  let groups := TokenGroup.by_color shapes color_mapping name in
  map TokenGroup.color groups
  = first_occurrences Color_eqb (map (classified color_mapping) shapes)
  /\ NoDup (map TokenGroup.color groups)
  /\ Forall (fun g =>
               TokenGroup.shapes g
               = filter (fun s => Color_eqb (TokenGroup.color g)
                                            (classified color_mapping s))
                        shapes)
            groups
  /\ Permutation (List.concat (map TokenGroup.shapes groups)) shapes
  /\ (NoDup shapes -> NoDup (List.concat (map TokenGroup.shapes groups)))
  /\ (forall s, In s shapes ->
        exists g, In g groups /\ In s (TokenGroup.shapes g)
                  /\ forall g', In g' groups -> In s (TokenGroup.shapes g') -> g' = g).
Proof.
  intros groups.
  assert (Hperm : Permutation (List.concat (map TokenGroup.shapes groups)) shapes).
  { subst groups. rewrite by_color_grouped, map_map. simpl.
    pose proof (grouped_permutation Color_eqb Color_eqb_spec
                  (classified color_mapping) shapes) as Hp.
    unfold grouped in Hp. rewrite map_map in Hp. exact Hp. }
  split; [apply by_color_colors |].
  split; [subst groups; rewrite by_color_colors;
          apply first_occurrences_NoDup; exact Color_eqb_spec |].
  split.
  { apply Forall_forall. intros g Hg. apply by_color_In in Hg.
    destruct Hg as (k & _ & ->). reflexivity. }
  split; [exact Hperm |].
  split.
  { intros Hnd. eapply Permutation_NoDup; [symmetry; exact Hperm | exact Hnd]. }
  intros s Hs.
  exists (TokenGroup.create_group name (classified color_mapping s)
            (members Color_eqb (classified color_mapping) shapes
                     (classified color_mapping s))).
  split; [| split].
  - apply by_color_In. exists (classified color_mapping s).
    split; [apply in_map; exact Hs | reflexivity].
  - simpl. unfold members. apply filter_In. split; [exact Hs |].
    apply eqb_refl. exact Color_eqb_spec.
  - intros g' Hg' Hsg'. apply by_color_In in Hg'. destruct Hg' as (k & _ & ->).
    simpl in Hsg'. unfold members in Hsg'. apply filter_In in Hsg'.
    destruct Hsg' as [_ Hk].
    destruct (Color_eqb_spec k (classified color_mapping s)) as [Heq | _];
      [rewrite Heq; reflexivity | discriminate Hk].
Qed.

(** Every group has a member. *)
Lemma by_color_nonempty (shapes : list (object Shape))
    (color_mapping : option (Color -> Color)) (name : string) :
  Forall (fun g => TokenGroup.shapes g <> [])
         (TokenGroup.by_color shapes color_mapping name).
Proof.
  apply Forall_forall. intros g Hg. apply by_color_In in Hg.
  destruct Hg as (k & Hk & ->). simpl.
  apply (members_nonempty Color_eqb Color_eqb_spec). exact Hk.
Qed.

End ByColorFacts.

(** ** Scenes *)

Lemma allocate_oval {A : Type} (next : nat) (values : list A) :
  map oval (allocate next values) = values.
Proof.
  revert next. induction values as [| v values IH]; intros next; simpl;
    [reflexivity | rewrite IH; reflexivity].
Qed.

Lemma allocate_oid {A : Type} (next : nat) (values : list A) :
  map oid (allocate next values) = seq next (List.length values).
Proof.
  revert next. induction values as [| v values IH]; intros next; simpl;
    [reflexivity | rewrite IH; reflexivity].
Qed.

Lemma allocate_length {A : Type} (next : nat) (values : list A) :
  List.length (allocate next values) = List.length values.
Proof.
  rewrite <- (length_map oval), allocate_oval. reflexivity.
Qed.

Lemma allocate_Forall {A : Type} (P : A -> Prop) (next : nat) (values : list A) :
  Forall P values -> Forall (fun o => P (oval o)) (allocate next values).
Proof.
  intros HP. revert next. induction HP as [| v values Hv _ IH]; intros next; simpl;
    constructor; [exact Hv | apply IH].
Qed.

Lemma mapM_all_ok {A B : Type} (f : A -> result B) (l : list A) :
  Forall (fun a => exists b, f a = Ok b) l ->
  exists l', mapM f l = Ok l' /\ List.length l' = List.length l.
Proof.
  induction 1 as [| a l (b & Hb) _ (l' & Hl' & Hlen)]; simpl.
  - exists []. split; reflexivity.
  - exists (b :: l'). rewrite Hb, Hl'. simpl. rewrite Hlen. split; reflexivity.
Qed.

Section SceneFacts.
Context `{Externals}.

(** A scene's shapes are objects created one after the other, and its groups
    are the groups of exactly these shapes. *)
Lemma from_svg_scene (next : nat) (file_name : string) (precision : PyNum)
    (available_colors : option ColorSet) (snap : option float) (reverse : bool)
    (scene : Scene) (warnings : list string) :
  TokenScene.from_svg next file_name precision available_colors snap reverse
  = Ok (scene, warnings) ->
  map oid (scene_shapes scene) = seq next (List.length (scene_shapes scene))
  /\ scene_groups scene
     = allocate (next + List.length (scene_shapes scene))
         (TokenGroup.by_color (scene_shapes scene)
            (palette_mapping available_colors) file_name).
Proof.
  unfold TokenScene.from_svg. intros Hs.
  apply bind_Ok_inv in Hs. destruct Hs as (svg_paths & _ & Hs).
  apply bind_Ok_inv in Hs. destruct Hs as (sampled & _ & Hs).
  injection Hs as <- _. simpl. split; [| reflexivity].
  rewrite allocate_oid, allocate_length. reflexivity.
Qed.

(** C4: the groups of every scene built from a file are the stable
    partition of the scene's shapes by classified color. The group colors
    are the distinct classified colors in order of first occurrence; each
    group holds, in scene order, exactly the shapes of its color; the shapes
    of the scene are distinct objects, and all groups together hold each of
    them exactly once; and every shape of the scene is a member of exactly
    one group. *)
Theorem scene_groups_stable_partition
    (next : nat) (file_name : string) (precision : PyNum)
    (available_colors : option ColorSet) (snap : option float) (reverse : bool)
    (scene : Scene) (warnings : list string) :
  TokenScene.from_svg next file_name precision available_colors snap reverse
  = Ok (scene, warnings) ->
  let shapes := scene_shapes scene in
  let groups := map oval (scene_groups scene) in
  let key := classified (palette_mapping available_colors) in
  map TokenGroup.color groups = first_occurrences Color_eqb (map key shapes)
  /\ NoDup (map TokenGroup.color groups)
  /\ Forall (fun g =>
               TokenGroup.shapes g
               = filter (fun s => Color_eqb (TokenGroup.color g) (key s)) shapes)
            groups
  /\ Permutation (List.concat (map TokenGroup.shapes groups)) shapes
  /\ NoDup shapes
  /\ NoDup (List.concat (map TokenGroup.shapes groups))
  /\ (forall s, In s shapes ->
        exists g, In g groups /\ In s (TokenGroup.shapes g)
                  /\ forall g', In g' groups -> In s (TokenGroup.shapes g') -> g' = g).
Proof.
  intros Hs shapes groups key.
  apply from_svg_scene in Hs. destruct Hs as [Hoid Hgroups].
  assert (Hg : groups = TokenGroup.by_color shapes (palette_mapping available_colors)
                          file_name).
  { subst groups. rewrite Hgroups. apply allocate_oval. }
  assert (Hnd : NoDup shapes).
  { apply (NoDup_map_inv oid). subst shapes. rewrite Hoid. apply seq_NoDup. }
  destruct (by_color_partition shapes (palette_mapping available_colors) file_name)
    as (Hcolors & Hdistinct & Hmembers & Hperm & Honce & Hone).
  rewrite <- Hg in Hcolors, Hdistinct, Hmembers, Hperm, Honce, Hone.
  repeat split; try assumption. apply Honce. exact Hnd.
Qed.

Lemma py_max_nonempty (items : list float) :
  items <> [] -> exists m, py_max items = Ok m.
Proof.
  destruct items as [| first rest]; [contradiction |].
  intros _. simpl. eexists. reflexivity.
Qed.

(** C10: every group of a scene built by the pipeline has at least one
    member shape, so the maximum color distance of each group is defined and
    the report yields one row per group. *)
Theorem groups_nonempty_and_report_defined
    (next : nat) (file_name : string) (precision : PyNum)
    (available_colors : option ColorSet) (snap : option float) (reverse : bool)
    (scene : Scene) (warnings : list string) :
  TokenScene.from_svg next file_name precision available_colors snap reverse
  = Ok (scene, warnings) ->
  Forall (fun g => TokenGroup.shapes (oval g) <> []) (scene_groups scene)
  /\ exists rows, show_info scene = Ok rows
                  /\ List.length rows = List.length (scene_groups scene).
Proof.
  intros Hs. apply from_svg_scene in Hs. destruct Hs as [_ Hg].
  assert (Hne : Forall (fun g => TokenGroup.shapes (oval g) <> []) (scene_groups scene)).
  { rewrite Hg.
    apply (allocate_Forall (fun g : TokenGroup.t => TokenGroup.shapes g <> [])).
    apply by_color_nonempty. }
  split; [exact Hne |].
  unfold show_info. apply mapM_all_ok.
  eapply Forall_impl; [| exact Hne].
  intros g Hgne. simpl in Hgne.
  destruct (py_max_nonempty
              (map (fun shape : object Shape =>
                      delta_e (shape_color (oval shape)) (TokenGroup.color (oval g)))
                   (TokenGroup.shapes (oval g)))) as (m & Hm).
  - intros Hnil. apply map_eq_nil in Hnil. exact (Hgne Hnil).
  - rewrite Hm. simpl. eexists. reflexivity.
Qed.

End SceneFacts.

(** ** The identifier registry *)

Section FactoryDictFacts.
Context {K V : Type} (key_eqb : K -> K -> bool) (factory : K -> V).

Lemma dict_find_app (d e : list (K * V)) (k : K) (v : V) :
  dict_find key_eqb d k = Some v -> dict_find key_eqb (d ++ e) k = Some v.
Proof.
  induction d as [| [k' v'] d IH]; simpl; intros Hf; [discriminate Hf |].
  destruct (key_eqb k' k); [exact Hf | apply IH; exact Hf].
Qed.

Lemma dict_find_snoc (d : list (K * V)) (k : K) (v : V) :
  key_eqb k k = true ->
  dict_find key_eqb d k = None -> dict_find key_eqb (d ++ [(k, v)]) k = Some v.
Proof.
  intros Hkk. induction d as [| [k' v'] d IH]; simpl; intros Hf.
  - rewrite Hkk. reflexivity.
  - destruct (key_eqb k' k); [discriminate Hf | apply IH; exact Hf].
Qed.

(** A stored value is returned as it is, and the dict is left alone. *)
Lemma getitem_found (d : list (K * V)) (k : K) (v : V) :
  dict_find key_eqb d k = Some v -> getitem key_eqb factory d k = (v, d).
Proof. unfold getitem. intros ->. reflexivity. Qed.

(** After a reference the dict resolves the key to the value returned. *)
Lemma getitem_then_found (d : list (K * V)) (k : K) :
  key_eqb k k = true ->
  dict_find key_eqb (snd (getitem key_eqb factory d k)) k
  = Some (fst (getitem key_eqb factory d k)).
Proof.
  intros Hkk. unfold getitem. destruct (dict_find key_eqb d k) as [v |] eqn:Hf; simpl.
  - exact Hf.
  - apply dict_find_snoc; assumption.
Qed.

(** A dict only grows, at its end. *)
Lemma getitem_grows (d : list (K * V)) (k : K) :
  exists e, snd (getitem key_eqb factory d k) = d ++ e.
Proof.
  unfold getitem. destruct (dict_find key_eqb d k) as [v |]; simpl.
  - exists []. symmetry. apply app_nil_r.
  - eexists. reflexivity.
Qed.

Lemma lookups_cons (d : list (K * V)) (k : K) (ks : list K) :
  lookups key_eqb factory d (k :: ks)
  = (fst (getitem key_eqb factory d k)
       :: fst (lookups key_eqb factory (snd (getitem key_eqb factory d k)) ks),
     snd (lookups key_eqb factory (snd (getitem key_eqb factory d k)) ks)).
Proof.
  simpl. destruct (getitem key_eqb factory d k) as [v d1]. simpl.
  destruct (lookups key_eqb factory d1 ks) as [vs d2]. reflexivity.
Qed.

Lemma lookups_app (d : list (K * V)) (ks ks' : list K) :
  lookups key_eqb factory d (ks ++ ks')
  = (fst (lookups key_eqb factory d ks)
       ++ fst (lookups key_eqb factory (snd (lookups key_eqb factory d ks)) ks'),
     snd (lookups key_eqb factory (snd (lookups key_eqb factory d ks)) ks')).
Proof.
  revert d. induction ks as [| k ks IH]; intros d.
  - simpl. destruct (lookups key_eqb factory d ks'). reflexivity.
  - rewrite <- app_comm_cons, !lookups_cons, IH. reflexivity.
Qed.

(** Once a key resolves to a value, every later reference returns it. *)
Lemma lookups_stable (d : list (K * V)) (k : K) (v : V) (ks : list K) (j : nat) (r : V) :
  dict_find key_eqb d k = Some v ->
  nth_error ks j = Some k ->
  nth_error (fst (lookups key_eqb factory d ks)) j = Some r ->
  r = v.
Proof.
  revert d j. induction ks as [| k' ks IH]; intros d j Hf Hk Hr.
  - destruct j; discriminate Hk.
  - rewrite lookups_cons in Hr. simpl in Hr. destruct j as [| j]; simpl in Hk, Hr.
    + injection Hk as ->. rewrite (getitem_found d k v Hf) in Hr.
      injection Hr as <-. reflexivity.
    + destruct (getitem_grows d k') as (e & He).
      apply (IH (snd (getitem key_eqb factory d k')) j); [| exact Hk | exact Hr].
      rewrite He. apply dict_find_app. exact Hf.
Qed.

(** Two references to one key within a session return the same value. *)
Lemma lookups_same_key (d : list (K * V)) (ks : list K) (i j : nat) (k : K) (ri rj : V) :
  key_eqb k k = true ->
  nth_error ks i = Some k ->
  nth_error ks j = Some k ->
  nth_error (fst (lookups key_eqb factory d ks)) i = Some ri ->
  nth_error (fst (lookups key_eqb factory d ks)) j = Some rj ->
  ri = rj.
Proof.
  intros Hkk. revert d i j. induction ks as [| k' ks IH]; intros d i j Hi Hj Hri Hrj.
  - destruct i; discriminate Hi.
  - rewrite lookups_cons in Hri, Hrj. simpl in Hri, Hrj.
    destruct i as [| i], j as [| j]; simpl in Hi, Hj, Hri, Hrj.
    + congruence.
    + injection Hi as ->. injection Hri as <-. symmetry.
      eapply lookups_stable; [| exact Hj | exact Hrj].
      apply getitem_then_found. exact Hkk.
    + injection Hj as ->. injection Hrj as <-.
      eapply lookups_stable; [| exact Hi | exact Hri].
      apply getitem_then_found. exact Hkk.
    + exact (IH _ i j Hi Hj Hri Hrj).
Qed.

(** Keys of a session: [live] holds, and on live keys the factory does not
    tell apart what the dict takes for equal. *)
Variable live : K -> Prop.
Hypothesis factory_respects :
  forall a b, live a -> live b -> key_eqb a b = true -> factory a = factory b.

Lemma dict_find_wf (d : list (K * V)) (k : K) (v : V) :
  live k -> dict_wf factory live d -> dict_find key_eqb d k = Some v -> v = factory k.
Proof.
  intros Hk Hwf. induction Hwf as [| [k' v'] d [Hk' Hv'] _ IH]; simpl; intros Hf.
  - discriminate Hf.
  - simpl in Hk', Hv'. destruct (key_eqb k' k) eqn:Heq.
    + injection Hf as <-. rewrite Hv'. apply factory_respects; assumption.
    + apply IH. exact Hf.
Qed.

Lemma getitem_wf (d : list (K * V)) (k : K) :
  live k -> dict_wf factory live d ->
  fst (getitem key_eqb factory d k) = factory k
  /\ dict_wf factory live (snd (getitem key_eqb factory d k)).
Proof.
  intros Hk Hwf. unfold getitem.
  destruct (dict_find key_eqb d k) as [v |] eqn:Hf; simpl.
  - split; [eapply dict_find_wf; eassumption | exact Hwf].
  - split; [reflexivity |].
    apply Forall_app. split; [exact Hwf |].
    constructor; [split; [exact Hk | reflexivity] | constructor].
Qed.

(** In a well-formed session every reference returns the factory's value
    for the key referred to. *)
Lemma lookups_wf (d : list (K * V)) (ks : list K) :
  Forall live ks -> dict_wf factory live d ->
  fst (lookups key_eqb factory d ks) = map factory ks
  /\ dict_wf factory live (snd (lookups key_eqb factory d ks)).
Proof.
  intros Hks. revert d. induction Hks as [| k ks Hk _ IH]; intros d Hwf.
  - simpl. split; [reflexivity | exact Hwf].
  - rewrite lookups_cons. simpl.
    destruct (getitem_wf d k Hk Hwf) as [Hv Hwf1].
    destruct (IH _ Hwf1) as [Hvs Hwf2].
    rewrite Hv, Hvs. split; [reflexivity | exact Hwf2].
Qed.

End FactoryDictFacts.

Lemma NoDup_oid_consistent {A : Type} (l : list (object A)) :
  NoDup (map oid l) -> consistent l.
Proof.
  intros Hnd a b Ha Hb Hab.
  destruct (In_nth_error _ _ Ha) as (i & Hi), (In_nth_error _ _ Hb) as (j & Hj).
  assert (Hij : i = j).
  { assert (Hlen : i < List.length (map oid l))
      by (rewrite length_map; apply nth_error_Some; rewrite Hi; discriminate).
    apply (proj1 (NoDup_nth_error (map oid l)) Hnd i j Hlen).
    rewrite !nth_error_map, Hi, Hj. simpl. rewrite Hab. reflexivity. }
  subst j. rewrite Hi in Hj. injection Hj as ->. reflexivity.
Qed.

Section RegistryFacts.
Context `{ShapeExternals}.

Lemma object_eqb_refl {A : Type} (value_eqb : A -> A -> bool) (a : object A) :
  object_eqb value_eqb a a = true.
Proof. unfold object_eqb. rewrite Nat.eqb_refl. reflexivity. Qed.

(** Groups that compare equal get the same names. *)
Lemma TokenGroup_eqb_names (g1 g2 : TokenGroup.t) :
  TokenGroup_eqb g1 g2 = true -> TokenGroupNames g1 = TokenGroupNames g2.
Proof.
  unfold TokenGroup_eqb. intros Heq.
  apply andb_prop in Heq. destruct Heq as [Heq Hname].
  apply andb_prop in Heq. destruct Heq as [Hcolor _].
  apply String.eqb_eq in Hname.
  destruct (Color_eqb_spec (TokenGroup.color g1) (TokenGroup.color g2)) as [Hc | _];
    [| discriminate Hcolor].
  unfold TokenGroupNames. rewrite Hname, Hc. reflexivity.
Qed.

Lemma group_names_respect (l : list (object TokenGroup.t)) :
  consistent l ->
  forall a b, In a l -> In b l ->
    object_eqb TokenGroup_eqb a b = true ->
    TokenGroupNames (oval a) = TokenGroupNames (oval b).
Proof.
  intros Hl a b Ha Hb Hab. unfold object_eqb in Hab.
  apply orb_prop in Hab. destruct Hab as [Hid | Hval].
  - apply Nat.eqb_eq in Hid. rewrite (Hl a b Ha Hb Hid). reflexivity.
  - apply TokenGroup_eqb_names. exact Hval.
Qed.

Lemma group_lookups_names (groups : list (object TokenGroup.t)) :
  consistent groups ->
  fst (group_lookups [] groups) = map (fun g => TokenGroupNames (oval g)) groups.
Proof.
  intros Hc.
  apply (lookups_wf (object_eqb TokenGroup_eqb) (fun g => TokenGroupNames (oval g))
           (fun g => In g groups) (group_names_respect groups Hc)).
  - apply Forall_forall. intros g Hg. exact Hg.
  - constructor.
Qed.

Lemma identity_keying : group_keying identity_eqb.
Proof.
  split.
  - intros k. apply Nat.eqb_refl.
  - intros a b Hab. left. apply Nat.eqb_eq. exact Hab.
Qed.

Lemma dict_keying : group_keying (object_eqb TokenGroup_eqb).
Proof.
  split.
  - intros k. apply object_eqb_refl.
  - intros a b Hab. unfold object_eqb in Hab. apply orb_prop in Hab.
    destruct Hab as [Hid | Hval]; [left; apply Nat.eqb_eq; exact Hid | right; exact Hval].
Qed.

Lemma list_eqb_refl {A : Type} (eqb : A -> A -> bool) (l : list A) :
  (forall a, eqb a a = true) -> list_eqb eqb l l = true.
Proof.
  intros Hrefl. induction l as [| a l IH]; simpl; [reflexivity |].
  rewrite Hrefl, IH. reflexivity.
Qed.

Lemma value_keying :
  group_keying (fun a b => TokenGroup_eqb (oval a) (oval b)).
Proof.
  split.
  - intros k. unfold TokenGroup_eqb.
    destruct (Color_eqb_spec (TokenGroup.color (oval k)) (TokenGroup.color (oval k)))
      as [_ | Hne]; [| contradiction].
    rewrite (list_eqb_refl _ _ (object_eqb_refl Shape_eqb)), String.eqb_refl.
    reflexivity.
  - intros a b Hab. right. exact Hab.
Qed.

(** However a registry of groups compares its keys, every reference
    returns the names computed from the group referred to. *)
Lemma keyed_lookups_names
    (key_eqb : object TokenGroup.t -> object TokenGroup.t -> bool)
    (groups : list (object TokenGroup.t)) :
  group_keying key_eqb -> consistent groups ->
  fst (lookups key_eqb (fun g => TokenGroupNames (oval g)) [] groups)
  = map (fun g => TokenGroupNames (oval g)) groups.
Proof.
  intros [_ Hkey] Hc.
  apply (lookups_wf key_eqb (fun g => TokenGroupNames (oval g))
           (fun g => In g groups)).
  - intros a b Ha Hb Hab. destruct (Hkey a b Hab) as [Hid | Hval].
    + rewrite (Hc a b Ha Hb Hid). reflexivity.
    + apply TokenGroup_eqb_names. exact Hval.
  - apply Forall_forall. intros g Hg. exact Hg.
  - constructor.
Qed.

(** C5 (as amended): within one session, two references to the same Shape
    or Group entity return the same name record, whatever the cache holds
    already. Two references to distinct Group entities that are equal in
    value do not return distinct names: they return equal name records,
    whether the cache compares its keys by identity, by value or as a dict
    does, because the names of a group are computed from its scene name and
    its color alone. *)
Theorem equal_groups_get_equal_names :
  (forall (A V : Type) (key_eqb : object A -> object A -> bool)
          (factory : object A -> V)
          (d : list (object A * V)) (ks : list (object A)) (i j : nat)
          (k : object A) (ri rj : V),
      key_eqb k k = true ->
      nth_error ks i = Some k ->
      nth_error ks j = Some k ->
      nth_error (fst (lookups key_eqb factory d ks)) i = Some ri ->
      nth_error (fst (lookups key_eqb factory d ks)) j = Some rj ->
      ri = rj)
  /\ (forall (key_eqb : object TokenGroup.t -> object TokenGroup.t -> bool)
             (groups : list (object TokenGroup.t)) (i j : nat)
             (gi gj : object TokenGroup.t) (ri rj : GroupNames),
        group_keying key_eqb ->
        consistent groups ->
        nth_error groups i = Some gi ->
        nth_error groups j = Some gj ->
        TokenGroup_eqb (oval gi) (oval gj) = true ->
        nth_error (fst (lookups key_eqb (fun g => TokenGroupNames (oval g)) [] groups)) i
        = Some ri ->
        nth_error (fst (lookups key_eqb (fun g => TokenGroupNames (oval g)) [] groups)) j
        = Some rj ->
        ri = rj).
Proof.
  split.
  - intros A V key_eqb factory d ks i j k ri rj Hkk Hi Hj Hri Hrj.
    exact (lookups_same_key key_eqb factory d ks i j k ri rj Hkk Hi Hj Hri Hrj).
  - intros key_eqb groups i j gi gj ri rj Hkey Hc Hi Hj Heq Hri Hrj.
    rewrite (keyed_lookups_names key_eqb groups Hkey Hc), nth_error_map in Hri, Hrj.
    rewrite Hi in Hri. rewrite Hj in Hrj. simpl in Hri, Hrj.
    injection Hri as <-. injection Hrj as <-.
    apply TokenGroup_eqb_names. exact Heq.
Qed.

End RegistryFacts.

(** ** The output script *)

Section ScriptFacts.
Context `{ShapeExternals}.

Lemma defined_modules_app (s1 s2 : list Scad) :
  defined_modules (s1 ++ s2) = defined_modules s1 ++ defined_modules s2.
Proof. apply flat_map_app. Qed.

Lemma instantiations_app (s1 s2 : list Scad) :
  instantiations (s1 ++ s2) = instantiations s1 ++ instantiations s2.
Proof. apply flat_map_app. Qed.

Lemma plain_defined_modules (body : list Scad) :
  forallb plain body = true -> defined_modules body = [].
Proof.
  induction body as [| s body IH]; simpl; intros Hp; [reflexivity |].
  apply andb_prop in Hp. destruct Hp as [Hs Hb].
  rewrite (IH Hb). destruct s; try reflexivity; discriminate Hs.
Qed.

Lemma plain_instantiations (body : list Scad) :
  forallb plain body = true -> instantiations body = [].
Proof.
  induction body as [| s body IH]; simpl; intros Hp; [reflexivity |].
  apply andb_prop in Hp. destruct Hp as [Hs Hb].
  rewrite (IH Hb). destruct s; try reflexivity; discriminate Hs.
Qed.

(** The member instances of a group: plain statements appended to the
    script, the group names untouched. *)
Lemma write_instance_effect (self : TokenOutputWriter) (shape : object Shape) :
  _group_names (write_instance self shape) = _group_names self
  /\ exists id, scad_writer (write_instance self shape)
                = scad_writer self ++ [instance id].
Proof.
  unfold write_instance, shape_names_getitem.
  destruct (getitem (object_eqb Shape_eqb) (fun s => ShapeNames_init (oval s))
              (_shape_names self) shape) as [names d].
  simpl. split; [reflexivity |]. eexists. reflexivity.
Qed.

Lemma write_instances_effect (shapes : list (object Shape)) (self : TokenOutputWriter) :
  _group_names (fold_left write_instance shapes self) = _group_names self
  /\ exists body, scad_writer (fold_left write_instance shapes self)
                  = scad_writer self ++ body
                  /\ forallb plain body = true.
Proof.
  revert self. induction shapes as [| shape shapes IH]; intros self; simpl.
  - split; [reflexivity |]. exists []. split; [symmetry; apply app_nil_r | reflexivity].
  - destruct (write_instance_effect self shape) as (Hg1 & id & Hs1).
    destruct (IH (write_instance self shape)) as (Hg & body & Hs & Hp).
    split; [rewrite Hg; exact Hg1 |].
    exists (instance id :: body). split.
    + rewrite Hs, Hs1, <- app_assoc. reflexivity.
    + simpl. exact Hp.
Qed.

(** One group: its names are looked up, then its module is written. *)
Lemma write_group_effect (self : TokenOutputWriter) (group : object TokenGroup.t) :
  let looked := group_lookups (_group_names self) [group] in
  _group_names (write_group self group) = snd looked
  /\ defined_modules (scad_writer (write_group self group))
     = defined_modules (scad_writer self) ++ map names_group (fst looked)
  /\ instantiations (scad_writer (write_group self group))
     = instantiations (scad_writer self).
Proof.
  unfold group_lookups. rewrite lookups_cons. simpl.
  unfold write_group, group_names_getitem.
  destruct (getitem (object_eqb TokenGroup_eqb) (fun g => TokenGroupNames (oval g))
              (_group_names self) group) as [names d].
  unfold scoped. simpl.
  match goal with
  | |- context [fold_left write_instance ?l ?w] =>
      destruct (write_instances_effect l w) as (Hg & body & Hs & Hp)
  end.
  rewrite Hg, Hs. simpl.
  rewrite !defined_modules_app, !instantiations_app. simpl.
  rewrite (plain_defined_modules body Hp), (plain_instantiations body Hp).
  rewrite !app_nil_r. repeat split; reflexivity.
Qed.

Lemma write_group_fold_effect (groups : list (object TokenGroup.t))
    (self : TokenOutputWriter) :
  let looked := group_lookups (_group_names self) groups in
  _group_names (fold_left write_group groups self) = snd looked
  /\ defined_modules (scad_writer (fold_left write_group groups self))
     = defined_modules (scad_writer self) ++ map names_group (fst looked)
  /\ instantiations (scad_writer (fold_left write_group groups self))
     = instantiations (scad_writer self).
Proof.
  revert self. induction groups as [| group groups IH]; intros self.
  - simpl. rewrite app_nil_r. repeat split; reflexivity.
  - simpl fold_left. destruct (write_group_effect self group) as (Hg & Hd & Hi).
    destruct (IH (write_group self group)) as (Hg' & Hd' & Hi').
    cbv zeta in *. unfold group_lookups in *.
    rewrite lookups_cons in Hg, Hd. simpl in Hg, Hd.
    rewrite lookups_cons. simpl.
    rewrite Hg', Hd', Hi', Hg, Hd, Hi, <- app_assoc. repeat split; reflexivity.
Qed.

(** What [write_groups] adds to the script: one module per group, named by
    the registry, and no instantiation. *)
Lemma write_groups_effect (groups : list (object TokenGroup.t))
    (self : TokenOutputWriter) :
  _group_names (write_groups groups self)
  = snd (group_lookups (_group_names self) groups)
  /\ defined_modules (scad_writer (write_groups groups self))
     = defined_modules (scad_writer self)
       ++ map names_group (fst (group_lookups (_group_names self) groups))
  /\ instantiations (scad_writer (write_groups groups self))
     = instantiations (scad_writer self).
Proof.
  unfold write_groups.
  destruct (write_group_fold_effect groups
              (emit (comment "Groups") (emit blank_line self))) as (Hg & Hd & Hi).
  cbv zeta in Hg, Hd, Hi. rewrite Hg, Hd, Hi. simpl.
  rewrite !defined_modules_app, !instantiations_app. simpl.
  rewrite !app_nil_r. repeat split; reflexivity.
Qed.

(** A statement written inside the optional flip block. *)
Lemma conditional_emit_effect (condition : bool) (context s : Scad)
    (self : TokenOutputWriter) :
  plain context = true ->
  _group_names (conditional_context condition context (emit s) self)
  = _group_names self
  /\ defined_modules (scad_writer (conditional_context condition context (emit s) self))
     = defined_modules (scad_writer self) ++ defined_modules [s]
  /\ instantiations (scad_writer (conditional_context condition context (emit s) self))
     = instantiations (scad_writer self) ++ instantiations [s].
Proof.
  intros Hc. unfold conditional_context, scoped. destruct condition; simpl.
  - rewrite !defined_modules_app, !instantiations_app.
    rewrite (plain_defined_modules [context]), (plain_instantiations [context])
      by (simpl; rewrite Hc; reflexivity).
    simpl. rewrite !app_nil_r. repeat split; reflexivity.
  - rewrite !defined_modules_app, !instantiations_app. repeat split; reflexivity.
Qed.

(** The two faces: the modules defined are those of the front groups, then
    those of the back groups, all named by the one registry of the writer;
    the groups are instantiated once per face. *)
Lemma render_faces_effect (thickness overlay_thickness : float) (flip : option bool)
    (writer : TokenOutputWriter) (scene_front scene_back : Scene) :
  let writer' :=
    render_faces_with thickness overlay_thickness flip writer scene_front scene_back in
  defined_modules (scad_writer writer')
  = defined_modules (scad_writer writer)
    ++ map names_group
         (fst (group_lookups (_group_names writer)
                 (scene_groups scene_front ++ scene_groups scene_back)))
  /\ instantiations (scad_writer writer')
     = instantiations (scad_writer writer)
       ++ [(scene_groups scene_front, PyInt 0);
           (scene_groups scene_back, PyFloat 1.84)]
  /\ _group_names writer'
     = snd (group_lookups (_group_names writer)
              (scene_groups scene_front ++ scene_groups scene_back)).
Proof.
  unfold render_faces_with. cbv zeta.
  set (w1 := emit _ (emit _ (emit _ writer))).
  destruct (write_groups_effect (scene_groups scene_front) w1) as (Hg2 & Hd2 & Hi2).
  set (w2 := write_groups (scene_groups scene_front) w1) in *.
  set (w3 := emit (write_solids (scene_groups scene_front) (PyFloat thickness)) w2).
  match goal with
  | |- context [conditional_context ?c ?ctx (emit ?s) w3] =>
      destruct (conditional_emit_effect c ctx s w3 eq_refl) as (Hg4 & Hd4 & Hi4);
      set (w4 := conditional_context c ctx (emit s) w3) in *
  end.
  set (w5 := emit _ (emit _ (emit _ w4))).
  destruct (write_groups_effect (scene_groups scene_back) w5) as (Hg6 & Hd6 & Hi6).
  set (w6 := write_groups (scene_groups scene_back) w5) in *.
  set (w7 := emit (write_solids (scene_groups scene_back) (PyFloat thickness)) w6).
  match goal with
  | |- context [conditional_context ?c ?ctx (emit ?s) w7] =>
      destruct (conditional_emit_effect c ctx s w7 eq_refl) as (Hg8 & Hd8 & Hi8)
  end.
  rewrite Hd8, Hi8, Hg8. subst w7. simpl scad_writer. simpl _group_names.
  rewrite !defined_modules_app, !instantiations_app, Hd6, Hi6, Hg6. subst w5.
  simpl scad_writer. simpl _group_names.
  rewrite !defined_modules_app, !instantiations_app, Hd4, Hi4, Hg4. subst w3.
  simpl scad_writer. simpl _group_names.
  rewrite !defined_modules_app, !instantiations_app, Hd2, Hi2, Hg2. subst w1.
  simpl scad_writer. simpl _group_names.
  rewrite !defined_modules_app, !instantiations_app.
  unfold group_lookups. rewrite lookups_app. simpl.
  rewrite map_app, !app_nil_r, <- !app_assoc. repeat split; reflexivity.
Qed.

(** C8: whatever the layer thickness, the front face's groups are
    instantiated at offset 0 and the back face's at the constant 1.84, and
    these are the only instantiations the two faces add to the script. *)
Theorem back_face_offset_is_constant (thickness overlay_thickness : float)
    (flip : option bool) (writer : TokenOutputWriter) (scene_front scene_back : Scene) :
  instantiations
    (scad_writer (render_faces_with thickness overlay_thickness flip
                    writer scene_front scene_back))
  = instantiations (scad_writer writer)
    ++ [(scene_groups scene_front, PyInt 0);
        (scene_groups scene_back, PyFloat 1.84)].
Proof.
  exact (proj1 (proj2 (render_faces_effect thickness overlay_thickness flip
                         writer scene_front scene_back))).
Qed.

End ScriptFacts.

(** ** One token *)

Section FactoryDictSessions.
Context {K V : Type} (key_eqb : K -> K -> bool) (factory : K -> V).
Variable live : K -> Prop.
Hypothesis factory_respects :
  forall a b, live a -> live b -> key_eqb a b = true -> factory a = factory b.
Hypothesis key_eqb_refl : forall k, key_eqb k k = true.

Lemma lookups_grows (d : list (K * V)) (ks : list K) :
  exists e, snd (lookups key_eqb factory d ks) = d ++ e.
Proof.
  revert d. induction ks as [| k ks IH]; intros d.
  - exists []. simpl. symmetry. apply app_nil_r.
  - rewrite lookups_cons. simpl.
    destruct (getitem_grows key_eqb factory d k) as (e1 & He1).
    destruct (IH (snd (getitem key_eqb factory d k))) as (e2 & He2).
    exists (e1 ++ e2). rewrite He2, He1, app_assoc. reflexivity.
Qed.

(** After a session the dict resolves every key that was referred to. *)
Lemma lookups_resolve (d : list (K * V)) (ks : list K) :
  Forall live ks -> dict_wf factory live d ->
  Forall (fun k => dict_find key_eqb (snd (lookups key_eqb factory d ks)) k
                   = Some (factory k)) ks.
Proof.
  intros Hks. revert d. induction Hks as [| k ks Hk _ IH]; intros d Hwf;
    constructor; rewrite lookups_cons; simpl.
  - destruct (lookups_grows (snd (getitem key_eqb factory d k)) ks) as (e & He).
    rewrite He. apply dict_find_app.
    rewrite getitem_then_found by apply key_eqb_refl. f_equal.
    apply (getitem_wf key_eqb factory live factory_respects d k Hk Hwf).
  - apply IH.
    apply (getitem_wf key_eqb factory live factory_respects d k Hk Hwf).
Qed.

End FactoryDictSessions.

Lemma seq_ranges_NoDup (a n b m : nat) :
  a + n <= b -> NoDup (seq a n ++ seq b m).
Proof.
  intros Hab. apply NoDup_app; [apply seq_NoDup | apply seq_NoDup |].
  intros i Hi Hi'. apply in_seq in Hi. apply in_seq in Hi'. lia.
Qed.

Section TokenFacts.
Context `{ShapeExternals} `{!Backend}.

Lemma render_base_effect :
  defined_modules (scad_writer (render_base TokenOutputWriter_init)) = []
  /\ instantiations (scad_writer (render_base TokenOutputWriter_init)) = []
  /\ _group_names (render_base TokenOutputWriter_init) = [].
Proof. repeat split; reflexivity. Qed.

(** The groups of a scene are objects created after its shapes, and each
    carries the name of the file the scene was read from. *)
Lemma create_scene_groups (next : nat) (filename : string) (reverse : bool)
    (scene : Scene) (warnings : list string) :
  TokenScene.create_scene next filename reverse = Ok (scene, warnings) ->
  map oid (scene_groups scene)
  = seq (next + List.length (scene_shapes scene)) (List.length (scene_groups scene))
  /\ Forall (fun g => TokenGroup.name (oval g) = filename) (scene_groups scene).
Proof.
  unfold TokenScene.create_scene. intros Hs.
  apply from_svg_scene in Hs. destruct Hs as [_ Hg]. rewrite Hg. split.
  - rewrite allocate_oid, allocate_length. reflexivity.
  - apply (allocate_Forall (fun g : TokenGroup.t => TokenGroup.name g = filename)).
    apply Forall_forall. intros g Hin. apply by_color_In in Hin.
    destruct Hin as (k & _ & ->). reflexivity.
Qed.

Lemma make_amiibozo_inv (frontPath backPath : string) (scene_front scene_back : Scene)
    (writer : TokenOutputWriter) :
  make_amiibozo frontPath backPath = Ok (scene_front, scene_back, writer) ->
  exists wf wb,
    TokenScene.create_scene 0 (svgs_join frontPath) false = Ok (scene_front, wf)
    /\ TokenScene.create_scene (TokenScene.scene_size scene_front)
         (svgs_join backPath) true = Ok (scene_back, wb)
    /\ writer = render_faces (render_base TokenOutputWriter_init) scene_front scene_back.
Proof.
  unfold make_amiibozo. intros Hm.
  apply bind_Ok_inv in Hm. destruct Hm as ([sf wf] & Hf & Hm).
  apply bind_Ok_inv in Hm. destruct Hm as ([sb wb] & Hb & Hm).
  apply bind_Ok_inv in Hm. destruct Hm as (rendered & _ & Hm).
  simpl in Hb, Hm. injection Hm as <- <- <-.
  exists wf, wb. repeat split; assumption.
Qed.

(** The groups of both faces of a token are distinct objects. *)
Lemma token_groups_consistent (frontPath backPath : string)
    (scene_front scene_back : Scene) (writer : TokenOutputWriter) :
  make_amiibozo frontPath backPath = Ok (scene_front, scene_back, writer) ->
  NoDup (map oid (scene_groups scene_front ++ scene_groups scene_back)).
Proof.
  intros Hm. apply make_amiibozo_inv in Hm. destruct Hm as (wf & wb & Hf & Hb & _).
  apply create_scene_groups in Hf, Hb.
  destruct Hf as [Hf _], Hb as [Hb _].
  rewrite map_app, Hf, Hb. apply seq_ranges_NoDup.
  unfold TokenScene.scene_size. lia.
Qed.

(** C6 (as amended): the two faces of a token are written through one
    writer and one identifier registry, not through separate namespaces.
    The script defines one module per front group, then one per back group,
    each named group_ followed by the sanitized text of the group's scene
    name, an underscore and the display name of its color; the scene name is
    the face's artwork path; and the one registry resolves the groups of both
    faces in the end. *)
Theorem faces_share_one_registry (frontPath backPath : string)
    (scene_front scene_back : Scene) (writer : TokenOutputWriter) :
  make_amiibozo frontPath backPath = Ok (scene_front, scene_back, writer) ->
  defined_modules (scad_writer writer)
  = map (fun g => group_module (oval g))
        (scene_groups scene_front ++ scene_groups scene_back)
  /\ Forall (fun g => TokenGroup.name (oval g) = svgs_join frontPath)
            (scene_groups scene_front)
  /\ Forall (fun g => TokenGroup.name (oval g) = svgs_join backPath)
            (scene_groups scene_back)
  /\ Forall (fun g => dict_find (object_eqb TokenGroup_eqb) (_group_names writer) g
                      = Some (TokenGroupNames (oval g)))
            (scene_groups scene_front ++ scene_groups scene_back).
Proof.
  intros Hm.
  pose proof (NoDup_oid_consistent _ (token_groups_consistent _ _ _ _ _ Hm)) as Hc.
  apply make_amiibozo_inv in Hm. destruct Hm as (wf & wb & Hf & Hb & ->).
  apply create_scene_groups in Hf, Hb.
  destruct Hf as [_ Hf], Hb as [_ Hb].
  destruct (render_faces_effect 0.72 0.24 (Some false)
              (render_base TokenOutputWriter_init) scene_front scene_back)
    as (Hd & _ & Hg).
  destruct render_base_effect as (Hd0 & _ & Hg0).
  cbv zeta in Hd, Hg. fold render_faces in Hd, Hg.
  rewrite Hd0, Hg0 in Hd. rewrite Hg0 in Hg.
  split; [| split; [exact Hf | split; [exact Hb |]]].
  - rewrite Hd, (group_lookups_names _ Hc), map_map. reflexivity.
  - rewrite Hg. unfold group_lookups.
    apply (lookups_resolve (object_eqb TokenGroup_eqb)
             (fun g => TokenGroupNames (oval g))
             (fun g => In g (scene_groups scene_front ++ scene_groups scene_back))
             (group_names_respect _ Hc)
             (object_eqb_refl TokenGroup_eqb)).
    + apply Forall_forall. intros g Hin. exact Hin.
    + constructor.
Qed.

End TokenFacts.

(** * The program at work

    The theorems above, and the points where the program departs from what
    is said of it, on the concrete collaborators of [Sample]. *)

Section Examples.
#[local] Existing Instance Sample.externals.
#[local] Existing Instance Sample.shape_externals.

(** The native point (72, 144) is emitted as (0.0254, 0.0508): the
    coordinates times 25.4e-3/72, a thousand times less than the
    coordinates times 25.4/72. *)
Lemma unsnapped_factor_counterexample :
  exists shape,
    TokenShape.from_svg_path (Sample.mk_path "p" [] [[Sample.pt 72 144]])
      PRECISION None false = Ok (shape, [])
    /\ paths (shape_polygon shape) = [[{| point_x := 0.0254; point_y := 0.0508 |}]]
    /\ paths (shape_polygon shape)
       <> scaled_paths (25.4 / 72) false [[Sample.pt 72 144]]
    /\ (0.0254 * 999 <? 72 * (25.4 / 72))%float = true.
Proof.
  eexists. split; [vm_compute; reflexivity |].
  split; [vm_compute; reflexivity |].
  split; [| vm_compute; reflexivity].
  intros Heq.
  apply (f_equal (fun l => match l with
                           | [[p]] => (point_x p =? 0.0254)%float
                           | _ => false
                           end)) in Heq.
  vm_compute in Heq. discriminate Heq.
Qed.

Lemma unsnapped_coordinates_witness :
  exists shape warnings,
    TokenShape.from_svg_path Sample.triangle_path PRECISION None false
    = Ok (shape, warnings)
    /\ paths (shape_polygon shape)
       = map (fun segment =>
                map (fun p => {| point_x := (svg_x p * (25.4e-3 / 72))%float;
                                 point_y := (svg_y p * (25.4e-3 / 72))%float |})
                    (filter_repetition SvgPoint_eqb segment))
             (svg_segments Sample.triangle_path PRECISION).
Proof.
  eexists. eexists. split; [vm_compute; reflexivity |].
  apply (@unsnapped_coordinates_scaled_by_px Sample.externals Sample.triangle_path PRECISION _ []).
  vm_compute. reflexivity.
Defined.

(** The back-face point (10, 20) is emitted as (80 * 25.4e-3/72,
    20 * 25.4e-3/72), not as (80 * 25.4/72, 20 * 25.4/72). *)
Lemma mirrored_factor_counterexample :
  exists shape,
    TokenShape.from_svg_path (Sample.mk_path "p" [] [[Sample.pt 10 20]])
      PRECISION None true = Ok (shape, [])
    /\ paths (shape_polygon shape)
       = [[{| point_x := ((90 - 10) * (25.4e-3 / 72))%float;
              point_y := (20 * (25.4e-3 / 72))%float |}]]
    /\ paths (shape_polygon shape)
       <> [[{| point_x := ((90 - 10) * (25.4 / 72))%float;
               point_y := (20 * (25.4 / 72))%float |}]]
    /\ ((90 - 10) * (25.4e-3 / 72) * 999 <? (90 - 10) * (25.4 / 72))%float = true.
Proof.
  eexists. split; [vm_compute; reflexivity |].
  split; [vm_compute; reflexivity |].
  split; [| vm_compute; reflexivity].
  intros Heq.
  apply (f_equal (fun l => match l with
                           | [[p]] => (point_x p =? (90 - 10) * (25.4e-3 / 72))%float
                           | _ => false
                           end)) in Heq.
  vm_compute in Heq. discriminate Heq.
Qed.

Lemma mirrored_coordinates_witness :
  exists shape warnings,
    TokenShape.from_svg_path Sample.triangle_path PRECISION None true
    = Ok (shape, warnings)
    /\ paths (shape_polygon shape)
       = map (fun segment =>
                map (fun p => {| point_x := ((90 - svg_x p) * (25.4e-3 / 72))%float;
                                 point_y := (svg_y p * (25.4e-3 / 72))%float |})
                    (filter_repetition SvgPoint_eqb segment))
             (svg_segments Sample.triangle_path PRECISION).
Proof.
  eexists. eexists. split; [vm_compute; reflexivity |].
  apply (@mirrored_coordinates_scaled_by_px Sample.externals Sample.triangle_path PRECISION _ []).
  vm_compute. reflexivity.
Defined.

(** C3: a path whose fill rule is "nonzero", and one with a stroke, stop
    the sampling with a NameError where a warning and a shape were due. *)
Theorem unsupported_style_stops_sampling :
  TokenShape.from_svg_path
    (Sample.mk_path "p" [("fill-rule", "nonzero")] [[Sample.pt 10 20]])
    PRECISION None false
  = Raise (NameError "logger")
  /\ TokenShape.from_svg_path
       (Sample.mk_path "q" [("stroke", "#000000")] [[Sample.pt 10 20]])
       PRECISION None false
     = Raise (NameError "logger")
  /\ is_ok (TokenShape.from_svg_path
              (Sample.mk_path "r" [("fill-rule", "evenodd"); ("stroke", "none")]
                 [[Sample.pt 10 20]])
              PRECISION None false) = true.
Proof.
  split; [| split].
  - apply unsupported_style_raises. reflexivity.
  - apply unsupported_style_raises. reflexivity.
  - vm_compute. reflexivity.
Qed.

(** C7: with a snap step of one millimetre the distinct native points
    (0, 0), (1, 0), (10, 0) are emitted as (0, 0), (0, 0), (0.004, 0): the
    duplicates are dropped before the points are scaled and snapped, so two
    consecutive emitted points are equal. *)
Theorem snapping_leaves_consecutive_duplicates :
  exists shape,
    filter_repetition SvgPoint_eqb [Sample.pt 0 0; Sample.pt 1 0; Sample.pt 10 0]
    = [Sample.pt 0 0; Sample.pt 1 0; Sample.pt 10 0]
    /\ TokenShape.from_svg_path
         (Sample.mk_path "p" [] [[Sample.pt 0 0; Sample.pt 1 0; Sample.pt 10 0]])
         PRECISION (Some 0.001%float) false = Ok (shape, [])
    /\ paths (shape_polygon shape)
       = [[{| point_x := 0; point_y := 0 |};
           {| point_x := 0; point_y := 0 |};
           {| point_x := 0.004; point_y := 0 |}]]
    /\ existsb has_consecutive_equal (paths (shape_polygon shape)) = true.
Proof.
  eexists. split; [vm_compute; reflexivity |].
  split; [vm_compute; reflexivity |].
  split; vm_compute; reflexivity.
Qed.

Lemma snapped_coordinates_witness :
  exists shape warnings,
    (0 <? 0.001)%float = true
    /\ TokenShape.from_svg_path Sample.triangle_path PRECISION (Some 0.001%float) true
       = Ok (shape, warnings)
    /\ Forall2
         (Forall2 (fun p q =>
                     rounded_multiple 0.001 (native_x true p * (25.4e-3 / 72))%float
                                      (point_x q)
                     /\ rounded_multiple 0.001 (svg_y p * (25.4e-3 / 72))%float
                                         (point_y q)))
         [[Sample.pt 10 20; Sample.pt 30 20; Sample.pt 20 40]]
         (paths (shape_polygon shape)).
Proof.
  eexists. eexists. split; [vm_compute; reflexivity |].
  split; [vm_compute; reflexivity |].
  apply (@snapped_coordinates_are_rounded_products Sample.externals Sample.triangle_path
           PRECISION 0.001%float true _ []).
  - vm_compute. reflexivity.
  - vm_compute. reflexivity.
Defined.

(** With the step 0.1 the native point (850, 2125.984251968504) is emitted
    as (0.30000000000000004, 0.8). The abscissa is the rounded product of
    0.1 and 3, and no integer times the value of the step gives it. The
    ordinate is 8 steps, where the scaled coordinate is exactly 0.75 and 7
    steps are nearer to it: twice 0.75 is less than 15 steps, the value of
    the step being above one tenth. *)
Lemma snapped_not_exact_counterexample :
  exists shape,
    (0 <? 0.1)%float = true
    /\ TokenShape.from_svg_path
         (Sample.mk_path "p" [] [[Sample.pt 850 2125.984251968504]])
         PRECISION (Some 0.1%float) false
       = Ok (shape, [])
    /\ paths (shape_polygon shape)
       = [[{| point_x := 0.30000000000000004; point_y := 0.8 |}]]
    /\ (forall k : Z, exact_multiple 0.1 0.30000000000000004 k -> False)
    /\ (2125.984251968504 * (25.4e-3 / 72) =? 0.75)%float = true
    /\ exact_multiple 0.1 0.8 8
    /\ exact_scaled_ltb 2 0.75 15 0.1 = true.
Proof.
  eexists. split; [vm_compute; reflexivity |].
  split; [vm_compute; reflexivity |].
  split; [vm_compute; reflexivity |].
  split.
  - intros k Hk.
    change (21617278211378384 = k * 7205759403792794)%Z in Hk. lia.
  - split; [vm_compute; reflexivity |].
    split; vm_compute; reflexivity.
Qed.

End Examples.

Section TokenInstantiations.
Context `{ShapeExternals} `{!Backend}.

(** In the script of a whole token the groups are instantiated twice: the
    front face's at 0, the back face's at 1.84. *)
Lemma token_instantiations (frontPath backPath : string)
    (scene_front scene_back : Scene) (writer : TokenOutputWriter) :
  make_amiibozo frontPath backPath = Ok (scene_front, scene_back, writer) ->
  instantiations (scad_writer writer)
  = [(scene_groups scene_front, PyInt 0); (scene_groups scene_back, PyFloat 1.84)].
Proof.
  intros Hm. apply make_amiibozo_inv in Hm. destruct Hm as (wf & wb & _ & _ & ->).
  unfold render_faces.
  destruct (render_faces_effect 0.72 0.24 (Some false)
              (render_base TokenOutputWriter_init) scene_front scene_back)
    as (_ & Hi & _).
  cbv zeta in Hi. rewrite Hi.
  destruct render_base_effect as (_ & Hi0 & _). rewrite Hi0. reflexivity.
Qed.

End TokenInstantiations.

Section TokenExamples.
#[local] Existing Instance Sample.externals.
#[local] Existing Instance Sample.shape_externals.
#[local] Existing Instance Sample.backend.

Lemma stable_partition_witness :
  exists scene warnings,
    TokenScene.from_svg 0 "svgs/front.svg" PRECISION None None false
    = Ok (scene, warnings)
    /\ map (fun shape => shape_name (oval shape)) (scene_shapes scene)
       = ["tri"; "blue"; "sq"]
    /\ map (fun g => TokenGroup.color (oval g)) (scene_groups scene)
       = ["#ff0000"; "#0000ff"]
    /\ map (fun g => map (fun shape => shape_name (oval shape))
                         (TokenGroup.shapes (oval g)))
           (scene_groups scene)
       = [["tri"; "sq"]; ["blue"]]
    /\ NoDup (List.concat (map TokenGroup.shapes (map oval (scene_groups scene)))).
Proof.
  eexists. eexists. split; [vm_compute; reflexivity |].
  split; [vm_compute; reflexivity |].
  split; [vm_compute; reflexivity |].
  split; [vm_compute; reflexivity |].
  destruct (@scene_groups_stable_partition Sample.externals 0 "svgs/front.svg"
              PRECISION None None false _ [] ltac:(vm_compute; reflexivity))
    as (_ & _ & _ & _ & _ & Hnd & _).
  exact Hnd.
Defined.

Lemma report_witness :
  exists scene warnings,
    TokenScene.from_svg 0 "svgs/front.svg" PRECISION None None false
    = Ok (scene, warnings)
    /\ Forall (fun g => TokenGroup.shapes (oval g) <> []) (scene_groups scene)
    /\ exists rows, show_info scene = Ok rows
                    /\ List.length rows = List.length (scene_groups scene).
Proof.
  eexists. eexists. split; [vm_compute; reflexivity |].
  apply (@groups_nonempty_and_report_defined Sample.externals 0 "svgs/front.svg"
           PRECISION None None false _ []).
  vm_compute. reflexivity.
Defined.

(** Both faces read from one file that holds a single point on the mirror
    axis: the front group and the back group are two objects, equal in
    value. A registry keyed by identity keeps an entry for each and returns
    the same names for both, and so does one keyed as a dict is: the two
    distinct entities share the module name group_svgs_dot_svg__ff0000. *)
Lemma value_equal_groups_counterexample :
  exists scene_front scene_back writer gf gb,
    make_amiibozo "dot.svg" "dot.svg" = Ok (scene_front, scene_back, writer)
    /\ scene_groups scene_front = [gf]
    /\ scene_groups scene_back = [gb]
    /\ Nat.eqb (oid gf) (oid gb) = false
    /\ TokenGroup_eqb (oval gf) (oval gb) = true
    /\ List.length (snd (lookups identity_eqb (fun g => TokenGroupNames (oval g))
                            [] [gf; gb])) = 2
    /\ fst (lookups identity_eqb (fun g => TokenGroupNames (oval g)) [] [gf; gb])
       = [TokenGroupNames (oval gf); TokenGroupNames (oval gf)]
    /\ fst (lookups (object_eqb TokenGroup_eqb) (fun g => TokenGroupNames (oval g))
              [] [gf; gb])
       = [TokenGroupNames (oval gf); TokenGroupNames (oval gf)]
    /\ names_group (TokenGroupNames (oval gf))
       = {| identifier := "group_svgs_dot_svg__ff0000" |}
    /\ names_group (TokenGroupNames (oval gb))
       = {| identifier := "group_svgs_dot_svg__ff0000" |}.
Proof.
  do 5 eexists. split; [vm_compute; reflexivity |].
  split; [reflexivity |]. split; [reflexivity |].
  repeat split; vm_compute; reflexivity.
Qed.

Lemma name_cache_witness :
  exists ri rj,
    Nat.eqb (oid front_dot_group) (oid back_dot_group) = false
    /\ nth_error (fst (lookups identity_eqb (fun g => TokenGroupNames (oval g)) []
                         [front_dot_group; back_dot_group])) 0 = Some ri
    /\ nth_error (fst (lookups identity_eqb (fun g => TokenGroupNames (oval g)) []
                         [front_dot_group; back_dot_group])) 1 = Some rj
    /\ ri = rj.
Proof.
  eexists. eexists. split; [reflexivity |].
  split; [vm_compute; reflexivity |]. split; [vm_compute; reflexivity |].
  refine (proj2 (@equal_groups_get_equal_names Sample.externals Sample.shape_externals)
            identity_eqb [front_dot_group; back_dot_group] 0 1
            front_dot_group back_dot_group _ _ _ _ eq_refl eq_refl _ _ _).
  - apply identity_keying.
  - apply NoDup_oid_consistent. simpl. repeat constructor; simpl; intuition discriminate.
  - vm_compute. reflexivity.
  - vm_compute. reflexivity.
  - vm_compute. reflexivity.
Defined.

(** Both faces read from one file: the front groups and the back groups
    differ in value (the back shapes are mirrored), yet each back group gets
    the names of a front group, and the script defines both modules twice. *)
Lemma shared_registry_counterexample :
  exists scene_front scene_back writer gf gb,
    make_amiibozo "front.svg" "front.svg" = Ok (scene_front, scene_back, writer)
    /\ nth_error (scene_groups scene_front) 0 = Some gf
    /\ nth_error (scene_groups scene_back) 0 = Some gb
    /\ object_eqb TokenGroup_eqb gf gb = false
    /\ dict_find (object_eqb TokenGroup_eqb) (_group_names writer) gf
       = Some (TokenGroupNames (oval gf))
    /\ dict_find (object_eqb TokenGroup_eqb) (_group_names writer) gb
       = Some (TokenGroupNames (oval gb))
    /\ TokenGroupNames (oval gf) = TokenGroupNames (oval gb)
    /\ defined_modules (scad_writer writer)
       = [ {| identifier := "group_svgs_front_svg__ff0000" |};
           {| identifier := "group_svgs_front_svg__0000ff" |};
           {| identifier := "group_svgs_front_svg__ff0000" |};
           {| identifier := "group_svgs_front_svg__0000ff" |} ].
Proof.
  do 5 eexists. split; [vm_compute; reflexivity |].
  split; [reflexivity |]. split; [reflexivity |].
  repeat split; vm_compute; reflexivity.
Qed.

Lemma faces_registry_witness :
  exists scene_front scene_back writer,
    make_amiibozo "front.svg" "back.svg" = Ok (scene_front, scene_back, writer)
    /\ defined_modules (scad_writer writer)
       = map (fun g => group_module (oval g))
             (scene_groups scene_front ++ scene_groups scene_back)
    /\ Forall (fun g => TokenGroup.name (oval g) = svgs_join "front.svg")
              (scene_groups scene_front)
    /\ Forall (fun g => TokenGroup.name (oval g) = svgs_join "back.svg")
              (scene_groups scene_back)
    /\ Forall (fun g => dict_find (object_eqb TokenGroup_eqb) (_group_names writer) g
                        = Some (TokenGroupNames (oval g)))
              (scene_groups scene_front ++ scene_groups scene_back).
Proof.
  do 3 eexists. split; [vm_compute; reflexivity |].
  apply (@faces_share_one_registry Sample.externals Sample.shape_externals Sample.backend
           "front.svg" "back.svg").
  vm_compute. reflexivity.
Defined.

End TokenExamples.

(** * Further properties of the program *)

(** ** Sampling: styles, fills and the snap step *)

Lemma mapM_ext {A B : Type} (f g : A -> result B) (l : list A) :
  (forall a, f a = g a) -> mapM f l = mapM g l.
Proof.
  intros Hfg. induction l as [| a l IH]; simpl; [reflexivity |].
  rewrite Hfg, IH. reflexivity.
Qed.

Lemma mapM_length {A B : Type} (f : A -> result B) (l : list A) (l' : list B) :
  mapM f l = Ok l' -> List.length l' = List.length l.
Proof.
  intros Hm. apply mapM_Ok_Forall2 in Hm.
  symmetry. eapply Forall2_length. exact Hm.
Qed.

Section SamplingEdges.
Context `{Externals}.

(** A path of a supported style is sampled without a word to the log. *)
Lemma supported_style_sampling (svg_path : SvgPath Style) (precision : PyNum)
    (snap : option float) (reverse : bool) :
  unsupported_fill_rule (svg_style svg_path) || stroked (svg_style svg_path) = false ->
  TokenShape.from_svg_path svg_path precision snap reverse
  = (fill <- Color_from_html (TokenShape.fill_text (svg_style svg_path)) ;;
     sampled <- mapM (TokenShape.path snap reverse) (svg_segments svg_path precision) ;;
     Ok ({| shape_name := svg_id svg_path; shape_color := fill;
            shape_polygon := {| paths := sampled |} |}, [])).
Proof.
  unfold unsupported_fill_rule, stroked, TokenShape.from_svg_path.
  destruct (extract_value (svg_style svg_path) "fill-rule") as [rule |];
    destruct (extract_value (svg_style svg_path) "stroke") as [stroke |];
    unfold TokenShape.is_None, TokenShape.opt_is; simpl orb;
    try destruct (String.eqb rule "evenodd"); try destruct (String.eqb stroke "none");
    simpl; intros Hu; try discriminate Hu; reflexivity.
Qed.

Lemma sampled_shape_inv (svg_path : SvgPath Style) (precision : PyNum)
    (snap : option float) (reverse : bool) (shape : Shape) (warnings : list string) :
  TokenShape.from_svg_path svg_path precision snap reverse = Ok (shape, warnings) ->
  warnings = []
  /\ unsupported_fill_rule (svg_style svg_path) || stroked (svg_style svg_path) = false
  /\ shape_name shape = svg_id svg_path
  /\ Color_from_html (TokenShape.fill_text (svg_style svg_path)) = Ok (shape_color shape).
Proof.
  intros Hs.
  destruct (unsupported_fill_rule (svg_style svg_path) || stroked (svg_style svg_path))
    eqn:Hu.
  - rewrite (unsupported_style_raises svg_path precision snap reverse Hu) in Hs.
    discriminate Hs.
  - rewrite (supported_style_sampling svg_path precision snap reverse Hu) in Hs.
    apply bind_Ok_inv in Hs. destruct Hs as (fill & Hfill & Hs).
    apply bind_Ok_inv in Hs. destruct Hs as (sampled & _ & Hs).
    injection Hs as <- <-. simpl. repeat split. exact Hfill.
Qed.

(** X1: a path is turned into a shape only when its style has neither an
    unsupported fill rule nor a stroke; the shape then carries the id of the
    path as its name and the color its fill text stands for, and no warning
    is ever returned with a shape. *)
Theorem sampled_shape_has_supported_style
    (svg_path : SvgPath Style) (precision : PyNum) (snap : option float)
    (reverse : bool) (shape : Shape) (warnings : list string) :
  TokenShape.from_svg_path svg_path precision snap reverse = Ok (shape, warnings) ->
  warnings = []
  /\ unsupported_fill_rule (svg_style svg_path) || stroked (svg_style svg_path) = false
  /\ shape_name shape = svg_id svg_path
  /\ Color_from_html (TokenShape.fill_text (svg_style svg_path)) = Ok (shape_color shape).
Proof. apply sampled_shape_inv. Qed.

(** X2: a path whose style has no fill, or an empty one, is colored with
    what the text #000000 stands for. *)
Theorem missing_fill_is_black
    (svg_path : SvgPath Style) (precision : PyNum) (snap : option float)
    (reverse : bool) (shape : Shape) (warnings : list string) :
  extract_value (svg_style svg_path) "fill" = None
  \/ extract_value (svg_style svg_path) "fill" = Some "" ->
  TokenShape.from_svg_path svg_path precision snap reverse = Ok (shape, warnings) ->
  Color_from_html "#000000" = Ok (shape_color shape).
Proof.
  intros Hfill Hs. apply sampled_shape_inv in Hs. destruct Hs as (_ & _ & _ & Hc).
  unfold TokenShape.fill_text in Hc.
  destruct Hfill as [Hfill | Hfill]; rewrite Hfill in Hc; exact Hc.
Qed.

Lemma length_zero_snap (s v : float) :
  (s =? 0)%float = true -> TokenShape.length (Some s) v = TokenShape.length None v.
Proof.
  intros Hs. unfold TokenShape.length, float_truthy. rewrite Hs. reflexivity.
Qed.

(** X3: a snap step equal to zero, of either sign, switches snapping off:
    the outcome is that of sampling with no snap step at all. *)
Theorem zero_snap_step_is_no_snap
    (svg_path : SvgPath Style) (precision : PyNum) (s : float) (reverse : bool) :
  (s =? 0)%float = true ->
  TokenShape.from_svg_path svg_path precision (Some s) reverse
  = TokenShape.from_svg_path svg_path precision None reverse.
Proof.
  intros Hs. unfold TokenShape.from_svg_path.
  rewrite (mapM_ext (TokenShape.path (Some s) reverse) (TokenShape.path None reverse));
    [reflexivity |].
  intros segment. unfold TokenShape.path. apply mapM_ext. intros p.
  unfold TokenShape.point. rewrite !(length_zero_snap s) by exact Hs. reflexivity.
Qed.

(** X4: without snapping, sampling a path of a supported style fails only
    when its fill text is not a color; otherwise it returns the shape with
    every native point scaled by 25.4e-3/72 (mirrored about 90 first when
    asked to), and no warning. *)
Theorem unsnapped_sampling_fails_only_on_fill
    (svg_path : SvgPath Style) (precision : PyNum) (reverse : bool) :
  unsupported_fill_rule (svg_style svg_path) || stroked (svg_style svg_path) = false ->
  TokenShape.from_svg_path svg_path precision None reverse
  = match Color_from_html (TokenShape.fill_text (svg_style svg_path)) with
    | Ok fill =>
        Ok ({| shape_name := svg_id svg_path; shape_color := fill;
               shape_polygon :=
                 {| paths := scaled_paths (25.4e-3 / 72) reverse
                               (svg_segments svg_path precision) |} |}, [])
    | Raise e => Raise e
    end.
Proof.
  intros Hu. rewrite (supported_style_sampling svg_path precision None reverse Hu).
  rewrite unsnapped_paths.
  destruct (Color_from_html (TokenShape.fill_text (svg_style svg_path))); reflexivity.
Qed.

(** X5: whatever the snap step and the mirroring, a shape has one path per
    sampled segment, in order, and each path has as many points as its
    segment has once consecutive repetitions are dropped: scaling and
    snapping neither drop nor add a point. *)
Theorem sampling_keeps_point_counts
    (svg_path : SvgPath Style) (precision : PyNum) (snap : option float)
    (reverse : bool) (shape : Shape) (warnings : list string) :
  TokenShape.from_svg_path svg_path precision snap reverse = Ok (shape, warnings) ->
  map (@List.length Point) (paths (shape_polygon shape))
  = map (fun segment => List.length (filter_repetition SvgPoint_eqb segment))
        (svg_segments svg_path precision).
Proof.
  intros Hs. apply from_svg_path_paths in Hs. apply mapM_Ok_Forall2 in Hs.
  induction Hs as [| segment ps segments pss Hseg _ IH]; simpl; [reflexivity |].
  rewrite IH. f_equal. unfold TokenShape.path in Hseg.
  apply mapM_length in Hseg. exact Hseg.
Qed.

End SamplingEdges.

Section SamplingEdgesExamples.
#[local] Existing Instance Sample.externals.

Lemma sampled_shape_witness :
  exists shape warnings,
    TokenShape.from_svg_path Sample.triangle_path PRECISION (Some 0.001%float) true
    = Ok (shape, warnings)
    /\ warnings = []
    /\ shape_name shape = "tri"
    /\ Color_from_html "#ff0000" = Ok (shape_color shape).
Proof.
  eexists. eexists. split; [vm_compute; reflexivity |].
  destruct (@sampled_shape_has_supported_style Sample.externals Sample.triangle_path
              PRECISION (Some 0.001%float) true _ [] ltac:(vm_compute; reflexivity))
    as (Hw & _ & Hn & Hc).
  split; [exact Hw |]. split; [exact Hn | exact Hc].
Defined.

Lemma missing_fill_witness :
  exists shape warnings,
    TokenShape.from_svg_path (Sample.mk_path "p" [("fill", "")] [[Sample.pt 72 144]])
      PRECISION None false
    = Ok (shape, warnings)
    /\ Color_from_html "#000000" = Ok (shape_color shape).
Proof.
  eexists. eexists. split; [vm_compute; reflexivity |].
  apply (@missing_fill_is_black Sample.externals
           (Sample.mk_path "p" [("fill", "")] [[Sample.pt 72 144]])
           PRECISION None false _ []).
  - right. reflexivity.
  - vm_compute. reflexivity.
Defined.

Lemma zero_snap_step_witness :
  ((-0) =? 0)%float = true
  /\ TokenShape.from_svg_path Sample.triangle_path PRECISION (Some (-0)%float) true
     = TokenShape.from_svg_path Sample.triangle_path PRECISION None true.
Proof.
  split; [vm_compute; reflexivity |].
  apply (@zero_snap_step_is_no_snap Sample.externals Sample.triangle_path PRECISION
           (-0)%float true).
  vm_compute. reflexivity.
Defined.

Lemma unsnapped_sampling_witness :
  TokenShape.from_svg_path Sample.triangle_path PRECISION None true
  = Ok ({| shape_name := "tri"; shape_color := "#ff0000";
           shape_polygon :=
             {| paths := scaled_paths (25.4e-3 / 72) true
                           [[Sample.pt 10 20; Sample.pt 30 20; Sample.pt 20 40]] |} |}, []).
Proof.
  apply (@unsnapped_sampling_fails_only_on_fill Sample.externals Sample.triangle_path
           PRECISION true).
  vm_compute. reflexivity.
Defined.

Lemma point_counts_witness :
  exists shape warnings,
    TokenShape.from_svg_path
      (Sample.mk_path "p" [] [[Sample.pt 0 0; Sample.pt 0 0; Sample.pt 1 0; Sample.pt 10 0]])
      PRECISION (Some 0.001%float) false
    = Ok (shape, warnings)
    /\ map (@List.length Point) (paths (shape_polygon shape)) = [3].
Proof.
  eexists. eexists. split; [vm_compute; reflexivity |].
  apply (@sampling_keeps_point_counts Sample.externals
           (Sample.mk_path "p" []
              [[Sample.pt 0 0; Sample.pt 0 0; Sample.pt 1 0; Sample.pt 10 0]])
           PRECISION (Some 0.001%float) false _ []).
  vm_compute. reflexivity.
Defined.

End SamplingEdgesExamples.

(** ** Groups, scenes and the report *)

Lemma first_occurrences_length {K : Type} (eqb : K -> K -> bool) (l : list K) :
  List.length (first_occurrences eqb l) <= List.length l.
Proof.
  induction l as [| k l IH]; simpl; [lia |].
  pose proof (filter_length_le (fun k' => negb (eqb k k')) (first_occurrences eqb l)).
  lia.
Qed.

Lemma concat_nil_Forall {A : Type} (ls : list (list A)) :
  Forall (fun l => l = []) ls -> List.concat ls = [].
Proof.
  induction 1 as [| l ls Hl _ IH]; simpl; [reflexivity |].
  rewrite Hl, IH. reflexivity.
Qed.

Lemma mapM_raises {A B : Type} (f : A -> result B) (l : list A) :
  Exists (fun a => is_ok (f a) = false) l -> is_ok (mapM f l) = false.
Proof.
  induction 1 as [a l Ha | a l _ IH]; simpl.
  - destruct (f a); [discriminate Ha | reflexivity].
  - destruct (f a); simpl; [| reflexivity].
    destruct (mapM f l); [discriminate IH | reflexivity].
Qed.

Lemma Forall2_map_eq {A B C : Type} (f : A -> C) (g : B -> C)
    (l : list A) (l' : list B) :
  Forall2 (fun a b => g b = f a) l l' -> map g l' = map f l.
Proof.
  induction 1 as [| a b l l' Hab _ IH]; simpl; [reflexivity |].
  rewrite Hab, IH. reflexivity.
Qed.

Lemma Forall2_In_l {A B : Type} (R : A -> B -> Prop) (l : list A) (l' : list B) :
  Forall2 R l l' -> Forall2 (fun a b => In a l /\ R a b) l l'.
Proof.
  induction 1 as [| a b l l' Hab _ IH]; constructor.
  - split; [left; reflexivity | exact Hab].
  - eapply Forall2_impl; [| exact IH].
    intros a' b' [Hin HR]. split; [right; exact Hin | exact HR].
Qed.

Section GroupFacts.
Context `{Externals}.

(** The members of a group have the group's classified color. *)
Lemma by_color_members (shapes : list (object Shape))
    (color_mapping : option (Color -> Color)) (name : string) (g : TokenGroup.t) :
  In g (TokenGroup.by_color shapes color_mapping name) ->
  TokenGroup.name g = name
  /\ Forall (fun s => In s shapes /\ classified color_mapping s = TokenGroup.color g)
            (TokenGroup.shapes g).
Proof.
  intros Hg. apply by_color_In in Hg. destruct Hg as (k & _ & ->). simpl.
  split; [reflexivity |]. apply Forall_forall. intros s Hs.
  unfold members in Hs. apply filter_In in Hs. destruct Hs as [Hin Hk].
  split; [exact Hin |].
  destruct (Color_eqb_spec k (classified color_mapping s)) as [Heq | _];
    [symmetry; exact Heq | discriminate Hk].
Qed.

Lemma by_color_permutation (shapes : list (object Shape))
    (color_mapping : option (Color -> Color)) (name : string) :
  Permutation
    (List.concat (map TokenGroup.shapes (TokenGroup.by_color shapes color_mapping name)))
    shapes.
Proof.
  rewrite by_color_grouped, map_map. simpl.
  pose proof (grouped_permutation Color_eqb Color_eqb_spec
                (classified color_mapping) shapes) as Hp.
  unfold grouped in Hp. rewrite map_map in Hp. exact Hp.
Qed.

(** X6: every group that [by_color] yields carries the name it was given,
    and each of its members is classified with the group's own color; there
    are never more groups than shapes, so no shapes give no groups. *)
Theorem by_color_groups_are_uniform (shapes : list (object Shape))
    (color_mapping : option (Color -> Color)) (name : string) :
  Forall (fun g =>
            TokenGroup.name g = name
            /\ Forall (fun s => classified color_mapping s = TokenGroup.color g)
                      (TokenGroup.shapes g))
         (TokenGroup.by_color shapes color_mapping name)
  /\ List.length (TokenGroup.by_color shapes color_mapping name) <= List.length shapes.
Proof.
  split.
  - apply Forall_forall. intros g Hg. apply by_color_members in Hg.
    destruct Hg as [Hn Hm]. split; [exact Hn |].
    eapply Forall_impl; [| exact Hm]. intros s [_ Hs]. exact Hs.
  - rewrite by_color_grouped, length_map.
    etransitivity; [apply first_occurrences_length |].
    rewrite length_map. reflexivity.
Qed.

(** What a scene is made of: the paths of the file, each sampled to the
    shape at its place, without warnings. *)
Lemma from_svg_inv (next : nat) (file_name : string) (precision : PyNum)
    (available_colors : option ColorSet) (snap : option float) (reverse : bool)
    (scene : Scene) (warnings : list string) :
  TokenScene.from_svg next file_name precision available_colors snap reverse
  = Ok (scene, warnings) ->
  warnings = []
  /\ exists svg_paths,
       svg_parse_flatten file_name = Ok svg_paths
       /\ Forall2 (fun svg_path shape =>
                     TokenShape.from_svg_path svg_path precision snap reverse
                     = Ok (oval shape, []))
                  svg_paths (scene_shapes scene).
Proof.
  unfold TokenScene.from_svg. intros Hs.
  apply bind_Ok_inv in Hs. destruct Hs as (svg_paths & Hparse & Hs).
  apply bind_Ok_inv in Hs. destruct Hs as (sampled & Hsampled & Hs).
  injection Hs as <- <-. simpl.
  apply mapM_Ok_Forall2 in Hsampled.
  assert (Hw : Forall (fun sw : Shape * list string => snd sw = []) sampled).
  { eapply Forall2_Forall_r; [| exact Hsampled].
    intros p [shape w] Hp. apply sampled_shape_inv in Hp. simpl.
    destruct Hp as (Hw & _). exact Hw. }
  split.
  - apply concat_nil_Forall. apply Forall_map. exact Hw.
  - exists svg_paths. split; [exact Hparse |].
    generalize next. clear Hparse.
    induction Hsampled as [| p [shape w] ps sampled Hp _ IH]; intros n; simpl;
      constructor.
    + inversion Hw as [| ? ? Hw1 ?]; subst. simpl in Hw1. subst w. exact Hp.
    + apply IH. inversion Hw; assumption.
Qed.

(** X7: a scene has one shape per path of its file, in file order: the
    shape at each place is the sampling of the path at that place and bears
    its id, and the scene comes with no warning. *)
Theorem scene_shapes_follow_paths (next : nat) (file_name : string) (precision : PyNum)
    (available_colors : option ColorSet) (snap : option float) (reverse : bool)
    (scene : Scene) (warnings : list string) :
  TokenScene.from_svg next file_name precision available_colors snap reverse
  = Ok (scene, warnings) ->
  warnings = []
  /\ exists svg_paths,
       svg_parse_flatten file_name = Ok svg_paths
       /\ Forall2 (fun svg_path shape =>
                     TokenShape.from_svg_path svg_path precision snap reverse
                     = Ok (oval shape, []))
                  svg_paths (scene_shapes scene)
       /\ map (fun shape => shape_name (oval shape)) (scene_shapes scene)
          = map svg_id svg_paths.
Proof.
  intros Hs. apply from_svg_inv in Hs. destruct Hs as (Hw & svg_paths & Hparse & HF).
  split; [exact Hw |]. exists svg_paths. split; [exact Hparse |]. split; [exact HF |].
  apply Forall2_map_eq. eapply Forall2_impl; [| exact HF].
  intros p shape Hp. apply sampled_shape_inv in Hp.
  destruct Hp as (_ & _ & Hn & _). exact Hn.
Qed.

(** X8: one path with an unsupported fill rule or a stroke, anywhere in the
    file, makes the whole scene fail: no scene of the remaining paths is
    returned. *)
Theorem unsupported_path_fails_scene (next : nat) (file_name : string)
    (precision : PyNum) (available_colors : option ColorSet) (snap : option float)
    (reverse : bool) (svg_paths : list (SvgPath Style)) :
  svg_parse_flatten file_name = Ok svg_paths ->
  existsb (fun svg_path => unsupported_fill_rule (svg_style svg_path)
                           || stroked (svg_style svg_path)) svg_paths = true ->
  is_ok (TokenScene.from_svg next file_name precision available_colors snap reverse)
  = false.
Proof.
  intros Hparse Hex. unfold TokenScene.from_svg. rewrite Hparse. simpl.
  assert (Hm : is_ok (mapM (fun path => TokenShape.from_svg_path path precision snap reverse)
                        svg_paths) = false).
  { apply mapM_raises. apply existsb_exists in Hex. destruct Hex as (p & Hin & Hp).
    apply Exists_exists. exists p. split; [exact Hin |].
    rewrite (unsupported_style_raises p precision snap reverse Hp). reflexivity. }
  destruct (mapM _ svg_paths); [discriminate Hm | reflexivity].
Qed.

(** The rows of a report that was printed, group by group. *)
Lemma show_info_rows (scene : Scene) (rows : list InfoRow) :
  show_info scene = Ok rows ->
  Forall2 (fun (g : object TokenGroup.t) row =>
             row_name row = (display_name (TokenGroup.color (oval g)) ++ ":")%string
             /\ row_shape_count row = List.length (TokenGroup.shapes (oval g))
             /\ py_max (map (fun shape : object Shape =>
                               delta_e (shape_color (oval shape))
                                       (TokenGroup.color (oval g)))
                            (TokenGroup.shapes (oval g)))
                = Ok (row_max_delta_e row))
          (scene_groups scene) rows.
Proof.
  unfold show_info. intros Hs. apply mapM_Ok_Forall2 in Hs.
  eapply Forall2_impl; [| exact Hs]. intros g row Hrow. simpl in Hrow.
  apply bind_Ok_inv in Hrow. destruct Hrow as (m & Hm & Hrow).
  injection Hrow as <-. simpl. repeat split. exact Hm.
Qed.

Lemma show_info_defined (scene : Scene) :
  Forall (fun g => TokenGroup.shapes (oval g) <> []) (scene_groups scene) ->
  exists rows, show_info scene = Ok rows.
Proof.
  intros Hne.
  destruct (mapM_all_ok
              (fun group : object TokenGroup.t =>
                 max_delta_e <-
                   py_max (map (fun shape : object Shape =>
                                  delta_e (shape_color (oval shape))
                                          (TokenGroup.color (oval group)))
                               (TokenGroup.shapes (oval group))) ;;
                 Ok {| row_name := (display_name (TokenGroup.color (oval group)) ++ ":")%string;
                       row_shape_count := List.length (TokenGroup.shapes (oval group));
                       row_max_delta_e := max_delta_e |})
              (scene_groups scene)) as (rows & Hrows & _).
  - eapply Forall_impl; [| exact Hne]. intros g Hg.
    destruct (py_max_nonempty
                (map (fun shape : object Shape =>
                        delta_e (shape_color (oval shape)) (TokenGroup.color (oval g)))
                     (TokenGroup.shapes (oval g)))) as (m & Hm).
    + intros Hnil. apply map_eq_nil in Hnil. exact (Hg Hnil).
    + rewrite Hm. simpl. eexists. reflexivity.
  - exists rows. exact Hrows.
Qed.

Lemma scene_groups_nonempty (next : nat) (file_name : string) (precision : PyNum)
    (available_colors : option ColorSet) (snap : option float) (reverse : bool)
    (scene : Scene) (warnings : list string) :
  TokenScene.from_svg next file_name precision available_colors snap reverse
  = Ok (scene, warnings) ->
  Forall (fun g => TokenGroup.shapes (oval g) <> []) (scene_groups scene).
Proof.
  intros Hs. apply from_svg_scene in Hs. destruct Hs as [_ Hg]. rewrite Hg.
  apply (allocate_Forall (fun g : TokenGroup.t => TokenGroup.shapes g <> [])).
  apply by_color_nonempty.
Qed.

Lemma list_sum_lengths {A : Type} (ls : list (list A)) :
  list_sum (map (@List.length A) ls) = List.length (List.concat ls).
Proof.
  induction ls as [| l ls IH]; simpl; [reflexivity |].
  rewrite length_app, IH. reflexivity.
Qed.

(** X9: the report of a scene built from a file has one row per group, in
    group order; the row bears the display name of the group's color
    followed by a colon and the number of the group's shapes, and the
    numbers of all rows add up to the number of shapes of the scene. *)
Theorem report_rows_account_for_shapes
    (next : nat) (file_name : string) (precision : PyNum)
    (available_colors : option ColorSet) (snap : option float) (reverse : bool)
    (scene : Scene) (warnings : list string) :
  TokenScene.from_svg next file_name precision available_colors snap reverse
  = Ok (scene, warnings) ->
  exists rows,
    show_info scene = Ok rows
    /\ map row_name rows
       = map (fun g => (display_name (TokenGroup.color (oval g)) ++ ":")%string)
             (scene_groups scene)
    /\ map row_shape_count rows
       = map (fun g => List.length (TokenGroup.shapes (oval g))) (scene_groups scene)
    /\ list_sum (map row_shape_count rows) = List.length (scene_shapes scene).
Proof.
  intros Hs.
  destruct (show_info_defined scene (scene_groups_nonempty _ _ _ _ _ _ _ _ Hs))
    as (rows & Hrows).
  exists rows. split; [exact Hrows |].
  pose proof (show_info_rows scene rows Hrows) as HF.
  assert (Hnames : map row_name rows
                   = map (fun g => (display_name (TokenGroup.color (oval g)) ++ ":")%string)
                         (scene_groups scene)).
  { apply Forall2_map_eq. eapply Forall2_impl; [| exact HF].
    intros g row (Hn & _ & _). exact Hn. }
  assert (Hcounts : map row_shape_count rows
                    = map (fun g => List.length (TokenGroup.shapes (oval g)))
                          (scene_groups scene)).
  { apply Forall2_map_eq. eapply Forall2_impl; [| exact HF].
    intros g row (_ & Hc & _). exact Hc. }
  split; [exact Hnames |]. split; [exact Hcounts |].
  rewrite Hcounts. apply from_svg_scene in Hs. destruct Hs as [_ Hg].
  rewrite Hg.
  rewrite <- (map_map oval (fun g : TokenGroup.t => List.length (TokenGroup.shapes g))).
  rewrite allocate_oval.
  rewrite <- (map_map TokenGroup.shapes (@List.length (object Shape))).
  rewrite list_sum_lengths.
  apply Permutation_length. apply by_color_permutation.
Qed.

(** X10: on a scene with a group that has no shape the report is not
    printed: [max] of an empty sequence raises a ValueError. *)
Theorem report_fails_on_empty_group (scene : Scene) :
  existsb (fun g : object TokenGroup.t =>
             match TokenGroup.shapes (oval g) with [] => true | _ => false end)
          (scene_groups scene) = true ->
  show_info scene = Raise (ValueError "max() arg is an empty sequence").
Proof.
  unfold show_info. induction (scene_groups scene) as [| g gs IH]; simpl; intros Hex.
  - discriminate Hex.
  - destruct (TokenGroup.shapes (oval g)) as [| s members] eqn:Hg; simpl.
    + reflexivity.
    + simpl in Hex. rewrite (IH Hex). reflexivity.
Qed.

Lemma py_max_constant (c : float) (items : list float) :
  items <> [] -> Forall (eq c) items -> py_max items = Ok c.
Proof.
  intros Hne Hall. destruct Hall as [| first rest <- Hrest]; [contradiction |].
  simpl. f_equal. clear Hne.
  induction Hrest as [| item rest <- _ IH]; simpl; [reflexivity |].
  destruct (c <? c)%float; exact IH.
Qed.

(** X11: in the report of a scene made by [create_scene], which groups by
    the shapes' own colors, the greatest color distance of each group is the
    distance of the group's color to itself. *)
Theorem report_without_palette (next : nat) (filename : string) (reverse : bool)
    (scene : Scene) (warnings : list string) :
  TokenScene.create_scene next filename reverse = Ok (scene, warnings) ->
  exists rows,
    show_info scene = Ok rows
    /\ map row_max_delta_e rows
       = map (fun g => delta_e (TokenGroup.color (oval g)) (TokenGroup.color (oval g)))
             (scene_groups scene).
Proof.
  unfold TokenScene.create_scene. intros Hs.
  pose proof (scene_groups_nonempty _ _ _ _ _ _ _ _ Hs) as Hne.
  destruct (show_info_defined scene Hne) as (rows & Hrows).
  exists rows. split; [exact Hrows |].
  pose proof (show_info_rows scene rows Hrows) as HF.
  apply from_svg_scene in Hs. destruct Hs as [_ Hg].
  assert (Hown : Forall (fun g : object TokenGroup.t =>
                           Forall (fun s : object Shape =>
                                     shape_color (oval s) = TokenGroup.color (oval g))
                                  (TokenGroup.shapes (oval g)))
                        (scene_groups scene)).
  { rewrite Hg.
    apply (allocate_Forall
             (fun g : TokenGroup.t =>
                Forall (fun s : object Shape => shape_color (oval s) = TokenGroup.color g)
                       (TokenGroup.shapes g))).
    apply Forall_forall. intros g Hin. apply by_color_members in Hin.
    destruct Hin as [_ Hm]. eapply Forall_impl; [| exact Hm].
    intros s [_ Hc]. exact Hc. }
  apply Forall2_map_eq.
  assert (Hin : Forall2 (fun (g : object TokenGroup.t) row =>
                           In g (scene_groups scene)
                           /\ py_max (map (fun shape : object Shape =>
                                             delta_e (shape_color (oval shape))
                                                     (TokenGroup.color (oval g)))
                                          (TokenGroup.shapes (oval g)))
                              = Ok (row_max_delta_e row))
                        (scene_groups scene) rows).
  { eapply Forall2_impl; [| apply Forall2_In_l; exact HF].
    intros g row [Hgin (_ & _ & Hmax)]. split; assumption. }
  eapply Forall2_impl; [| exact Hin]. intros g row [Hgin Hmax].
  rewrite Forall_forall in Hne, Hown.
  rewrite (py_max_constant
             (delta_e (TokenGroup.color (oval g)) (TokenGroup.color (oval g)))) in Hmax.
  - injection Hmax as <-. reflexivity.
  - intros Hnil. apply map_eq_nil in Hnil. exact (Hne g Hgin Hnil).
  - apply Forall_map. eapply Forall_impl; [| exact (Hown g Hgin)].
    intros s Hc. simpl in Hc. rewrite Hc. reflexivity.
Qed.

End GroupFacts.

Section GroupFactsExamples.
#[local] Existing Instance Sample.externals.

Lemma scene_shapes_witness :
  exists scene warnings,
    TokenScene.from_svg 0 "svgs/front.svg" PRECISION None None false
    = Ok (scene, warnings)
    /\ warnings = []
    /\ map (fun shape => shape_name (oval shape)) (scene_shapes scene)
       = ["tri"; "blue"; "sq"].
Proof.
  eexists. eexists. split; [vm_compute; reflexivity |].
  destruct (@scene_shapes_follow_paths Sample.externals 0 "svgs/front.svg" PRECISION
              None None false _ [] ltac:(vm_compute; reflexivity))
    as (Hw & svg_paths & Hparse & _ & Hnames).
  split; [exact Hw |].
  rewrite Hnames.
  change (svg_parse_flatten "svgs/front.svg")
    with (Ok [Sample.triangle_path; Sample.blue_path; Sample.square_path]) in Hparse.
  injection Hparse as <-. reflexivity.
Defined.

Lemma unsupported_path_witness :
  @svg_parse_flatten Stroked.externals "svgs/outlined.svg"
  = Ok [Sample.triangle_path; Stroked.outline_path]
  /\ is_ok (@TokenScene.from_svg Stroked.externals 0 "svgs/outlined.svg" PRECISION
              None None false) = false.
Proof.
  split; [reflexivity |].
  apply (@unsupported_path_fails_scene Stroked.externals 0 "svgs/outlined.svg"
           PRECISION None None false [Sample.triangle_path; Stroked.outline_path]).
  - reflexivity.
  - vm_compute. reflexivity.
Defined.

Lemma report_rows_witness :
  exists scene warnings rows,
    TokenScene.from_svg 0 "svgs/front.svg" PRECISION None None false
    = Ok (scene, warnings)
    /\ show_info scene = Ok rows
    /\ map row_name rows = ["#ff0000:"; "#0000ff:"]
    /\ map row_shape_count rows = [2; 1].
Proof.
  destruct (@report_rows_account_for_shapes Sample.externals 0 "svgs/front.svg"
              PRECISION None None false _ [] ltac:(vm_compute; reflexivity))
    as (rows & Hrows & Hnames & Hcounts & _).
  eexists. eexists. exists rows. split; [vm_compute; reflexivity |].
  split; [exact Hrows |]. split; [exact Hnames | exact Hcounts].
Defined.

Lemma report_empty_group_witness :
  show_info {| scene_shapes := []; scene_groups := [front_dot_group] |}
  = Raise (ValueError "max() arg is an empty sequence").
Proof.
  apply (@report_fails_on_empty_group Sample.externals
           {| scene_shapes := []; scene_groups := [front_dot_group] |}).
  reflexivity.
Defined.

Lemma report_without_palette_witness :
  exists scene warnings rows,
    TokenScene.create_scene 0 "svgs/front.svg" true = Ok (scene, warnings)
    /\ show_info scene = Ok rows
    /\ map row_max_delta_e rows
       = map (fun g => delta_e (TokenGroup.color (oval g)) (TokenGroup.color (oval g)))
             (scene_groups scene).
Proof.
  destruct (@report_without_palette Sample.externals 0 "svgs/front.svg" true _ []
              ltac:(vm_compute; reflexivity))
    as (rows & Hrows & Hmax).
  eexists. eexists. exists rows. split; [vm_compute; reflexivity |].
  split; [exact Hrows | exact Hmax].
Defined.

End GroupFactsExamples.

(** ** Names and blocks *)

Lemma depth_after_cons {Color : Type} (depth : nat) (s : Scad_ Color)
    (script : list (Scad_ Color)) :
  is_open s = true -> depth_after depth (s :: script) = depth_after (S depth) script.
Proof. destruct s; simpl; intros Hs; try discriminate Hs; reflexivity. Qed.

Lemma depth_after_app {Color : Type} (depth : nat) (s1 s2 : list (Scad_ Color)) :
  depth_after depth (s1 ++ s2)
  = match depth_after depth s1 with
    | Some d => depth_after d s2
    | None => None
    end.
Proof.
  revert depth. induction s1 as [| s s1 IH]; intros depth; [reflexivity |].
  destruct s; simpl; try apply IH.
  destruct depth as [| d]; [reflexivity | apply IH].
Qed.

Section BlockFacts.
Context `{ShapeExternals} `{!Backend}.

(** X12: the module and the solid of a group never share an identifier,
    whatever the two groups; and two groups share the identifier of their
    modules exactly when they share that of their solids. *)
Theorem group_and_solid_identifiers (g1 g2 : TokenGroup.t) :
  String.eqb (identifier (names_group (TokenGroupNames g1)))
             (identifier (names_solid (TokenGroupNames g2))) = false
  /\ (names_group (TokenGroupNames g1) = names_group (TokenGroupNames g2)
      <-> names_solid (TokenGroupNames g1) = names_solid (TokenGroupNames g2)).
Proof.
  split; [reflexivity |].
  unfold TokenGroupNames. simpl.
  split; intros Heq; injection Heq as Heq; rewrite Heq; reflexivity.
Qed.

Lemma grows_refl (w : TokenOutputWriter) : grows w w.
Proof.
  repeat split; exists []; rewrite app_nil_r; try reflexivity.
  split; reflexivity.
Qed.

Lemma grows_trans (w1 w2 w3 : TokenOutputWriter) :
  grows w1 w2 -> grows w2 w3 -> grows w1 w3.
Proof.
  intros ((a1 & Ha1 & Hd1) & (s1 & Hs1) & (g1 & Hg1))
         ((a2 & Ha2 & Hd2) & (s2 & Hs2) & (g2 & Hg2)).
  split; [| split].
  - exists (a1 ++ a2). split; [rewrite Ha2, Ha1, app_assoc; reflexivity |].
    intros d. rewrite depth_after_app, Hd1. apply Hd2.
  - exists (s1 ++ s2). rewrite Hs2, Hs1, app_assoc. reflexivity.
  - exists (g1 ++ g2). rewrite Hg2, Hg1, app_assoc. reflexivity.
Qed.

Lemma emit_grows (s : Scad) (w : TokenOutputWriter) :
  (forall depth, depth_after depth [s] = Some depth) -> grows w (emit s w).
Proof.
  intros Hs. split; [| split].
  - exists [s]. split; [reflexivity | exact Hs].
  - exists []. simpl. rewrite app_nil_r. reflexivity.
  - exists []. simpl. rewrite app_nil_r. reflexivity.
Qed.

Lemma scoped_grows (opening : Scad) (body : TokenOutputWriter -> TokenOutputWriter)
    (w : TokenOutputWriter) :
  is_open opening = true ->
  (forall w', grows w' (body w')) ->
  grows w (scoped opening body w).
Proof.
  intros Ho Hb. unfold scoped.
  destruct (Hb (emit opening w)) as ((a & Ha & Hd) & (s & Hs) & (g & Hg)).
  simpl in Ha, Hs, Hg. split; [| split].
  - exists (opening :: a ++ [close_block]). split.
    + simpl. rewrite Ha, <- !app_assoc. reflexivity.
    + intros d. rewrite (depth_after_cons d opening _ Ho), depth_after_app, Hd.
      reflexivity.
  - exists s. simpl. exact Hs.
  - exists g. simpl. exact Hg.
Qed.

Lemma fold_left_grows {A : Type} (step : TokenOutputWriter -> A -> TokenOutputWriter)
    (items : list A) (w : TokenOutputWriter) :
  (forall w' item, grows w' (step w' item)) -> grows w (fold_left step items w).
Proof.
  intros Hstep. revert w. induction items as [| item items IH]; intros w; simpl.
  - apply grows_refl.
  - eapply grows_trans; [apply Hstep | apply IH].
Qed.

Lemma write_instance_grows (w : TokenOutputWriter) (shape : object Shape) :
  grows w (write_instance w shape).
Proof.
  unfold write_instance, shape_names_getitem.
  destruct (getitem_grows (object_eqb Shape_eqb) (fun s => ShapeNames_init (oval s))
              (_shape_names w) shape) as (e & He).
  destruct (getitem (object_eqb Shape_eqb) (fun s => ShapeNames_init (oval s))
              (_shape_names w) shape) as [names d].
  simpl in He. simpl. split; [| split].
  - eexists. split; [reflexivity |]. intros depth. reflexivity.
  - exists e. exact He.
  - exists []. rewrite app_nil_r. reflexivity.
Qed.

Lemma write_group_grows (w : TokenOutputWriter) (group : object TokenGroup.t) :
  grows w (write_group w group).
Proof.
  unfold write_group, group_names_getitem.
  destruct (getitem_grows (object_eqb TokenGroup_eqb) (fun g => TokenGroupNames (oval g))
              (_group_names w) group) as (e & He).
  destruct (getitem (object_eqb TokenGroup_eqb) (fun g => TokenGroupNames (oval g))
              (_group_names w) group) as [names d].
  simpl in He.
  eapply grows_trans; [| apply scoped_grows; [reflexivity |]].
  - split; [| split]; simpl.
    + exists []. split; [rewrite app_nil_r; reflexivity | intros depth; reflexivity].
    + exists []. rewrite app_nil_r. reflexivity.
    + exists e. exact He.
  - intros w'. apply fold_left_grows. apply write_instance_grows.
Qed.

Lemma write_groups_grows (groups : list (object TokenGroup.t)) (w : TokenOutputWriter) :
  grows w (write_groups groups w).
Proof.
  unfold write_groups.
  eapply grows_trans; [| apply fold_left_grows; apply write_group_grows].
  eapply grows_trans; apply emit_grows; intros depth; reflexivity.
Qed.

Lemma conditional_context_grows (condition : bool) (context : Scad)
    (body : TokenOutputWriter -> TokenOutputWriter) (w : TokenOutputWriter) :
  is_open context = true ->
  (forall w', grows w' (body w')) ->
  grows w (conditional_context condition context body w).
Proof.
  intros Hc Hb. unfold conditional_context. destruct condition.
  - apply scoped_grows; assumption.
  - apply Hb.
Qed.

Lemma render_base_grows (w : TokenOutputWriter) : grows w (render_base w).
Proof.
  unfold render_base.
  eapply grows_trans; [| apply scoped_grows; [reflexivity |]].
  - eapply grows_trans; apply emit_grows; intros depth; reflexivity.
  - intros w1. apply scoped_grows; [reflexivity |]. intros w2.
    eapply grows_trans; [| apply scoped_grows; [reflexivity |]].
    + eapply grows_trans; [| apply scoped_grows; [reflexivity |]].
      * eapply grows_trans; [| apply scoped_grows; [reflexivity |]].
        -- apply emit_grows. intros depth. reflexivity.
        -- intros w3. apply emit_grows. intros depth. reflexivity.
      * intros w3. apply emit_grows. intros depth. reflexivity.
    + intros w3. apply emit_grows. intros depth. reflexivity.
Qed.

Lemma render_faces_grows (thickness overlay_thickness : float) (flip : option bool)
    (w : TokenOutputWriter) (scene_front scene_back : Scene) :
  grows w (render_faces_with thickness overlay_thickness flip w scene_front scene_back).
Proof.
  unfold render_faces_with. cbv zeta.
  repeat first
    [ apply grows_refl
    | eapply grows_trans;
      [| first
           [ apply conditional_context_grows;
             [reflexivity | intros w'; apply emit_grows; intros depth; reflexivity]
           | apply write_groups_grows
           | apply emit_grows; intros depth; reflexivity ] ] ].
Qed.

(** X13: [render_base], [write_groups] and the body of [render_faces] only
    add to a writer, whatever state it is in and whatever the thickness and
    the flip flag: the script is extended by whole blocks, every block that
    is opened being closed and none closed that is not open, and the two
    registries by new entries at their end. *)
Theorem writers_append_whole_blocks (thickness overlay_thickness : float)
    (flip : option bool) (groups : list (object TokenGroup.t))
    (scene_front scene_back : Scene) (writer : TokenOutputWriter) :
  grows writer (render_base writer)
  /\ grows writer (write_groups groups writer)
  /\ grows writer (render_faces_with thickness overlay_thickness flip writer
                     scene_front scene_back).
Proof.
  split; [apply render_base_grows |].
  split; [apply write_groups_grows | apply render_faces_grows].
Qed.

(** X14: the script of a token is well nested: read from its start it never
    closes a block that is not open, and it ends with no block open. *)
Theorem token_script_is_well_nested (frontPath backPath : string)
    (scene_front scene_back : Scene) (writer : TokenOutputWriter) :
  make_amiibozo frontPath backPath = Ok (scene_front, scene_back, writer) ->
  depth_after 0 (scad_writer writer) = Some 0.
Proof.
  intros Hm. apply make_amiibozo_inv in Hm. destruct Hm as (wf & wb & _ & _ & ->).
  destruct (grows_trans _ _ _ (render_base_grows TokenOutputWriter_init)
              (render_faces_grows 0.72 0.24 (Some false)
                 (render_base TokenOutputWriter_init) scene_front scene_back))
    as ((added & Ha & Hd) & _).
  unfold render_faces. rewrite Ha. simpl. apply Hd.
Qed.

(** X15: a name once given is kept: whatever a registry resolves a group or
    a shape to before the two faces are written, it resolves it to after. *)
Theorem names_once_given_are_kept (thickness overlay_thickness : float)
    (flip : option bool) (writer : TokenOutputWriter) (scene_front scene_back : Scene) :
  let writer' :=
    render_faces_with thickness overlay_thickness flip writer scene_front scene_back in
  (forall group names,
      dict_find (object_eqb TokenGroup_eqb) (_group_names writer) group = Some names ->
      dict_find (object_eqb TokenGroup_eqb) (_group_names writer') group = Some names)
  /\ (forall shape names,
        dict_find (object_eqb Shape_eqb) (_shape_names writer) shape = Some names ->
        dict_find (object_eqb Shape_eqb) (_shape_names writer') shape = Some names).
Proof.
  intros writer'.
  destruct (render_faces_grows thickness overlay_thickness flip writer
              scene_front scene_back) as (_ & (s & Hs) & (g & Hg)).
  fold writer' in Hs, Hg. split.
  - intros group names Hf. rewrite Hg. apply dict_find_app. exact Hf.
  - intros shape names Hf. rewrite Hs. apply dict_find_app. exact Hf.
Qed.

End BlockFacts.

Section BlockFactsExamples.
#[local] Existing Instance Sample.externals.
#[local] Existing Instance Sample.shape_externals.
#[local] Existing Instance Sample.backend.

Lemma token_script_nesting_witness :
  exists scene_front scene_back writer,
    make_amiibozo "front.svg" "back.svg" = Ok (scene_front, scene_back, writer)
    /\ depth_after 0 (scad_writer writer) = Some 0.
Proof.
  do 3 eexists. split; [vm_compute; reflexivity |].
  eapply (@token_script_is_well_nested Sample.externals Sample.shape_externals Sample.backend
            "front.svg" "back.svg").
  vm_compute. reflexivity.
Defined.

End BlockFactsExamples.

(** ** The script of a token, statement by statement *)

Lemma allocate_In {A : Type} (next : nat) (values : list A) (o : object A) :
  In o (allocate next values) -> In (oval o) values.
Proof.
  intros Hin. rewrite <- (allocate_oval next values). apply in_map. exact Hin.
Qed.

Section ScriptStatements.
Context `{ShapeExternals}.
Variable live_shapes : list (object Shape).
Variable live_groups : list (object TokenGroup.t).
Hypothesis shapes_consistent : consistent live_shapes.
Hypothesis groups_consistent : consistent live_groups.
Hypothesis names_respect_eq :
  forall a b : Shape, Shape_eqb a b = true -> ShapeNames_init a = ShapeNames_init b.

Lemma shape_names_respect (a b : object Shape) :
  In a live_shapes -> In b live_shapes ->
  object_eqb Shape_eqb a b = true ->
  ShapeNames_init (oval a) = ShapeNames_init (oval b).
Proof.
  intros Ha Hb Hab. unfold object_eqb in Hab.
  apply orb_prop in Hab. destruct Hab as [Hid | Hval].
  - apply Nat.eqb_eq in Hid. rewrite (shapes_consistent a b Ha Hb Hid). reflexivity.
  - apply names_respect_eq. exact Hval.
Qed.

Lemma scad_writer_emit (s : Scad) (w : TokenOutputWriter) :
  scad_writer (emit s w) = scad_writer w ++ [s].
Proof. reflexivity. Qed.

Lemma write_instance_script (w : TokenOutputWriter) (shape : object Shape) :
  In shape live_shapes ->
  registries_wf live_shapes live_groups w ->
  scad_writer (write_instance w shape)
  = scad_writer w ++ [instance (clipped_shape (ShapeNames_init (oval shape)))]
  /\ registries_wf live_shapes live_groups (write_instance w shape).
Proof.
  intros Hin [Hws Hwg]. unfold write_instance, shape_names_getitem.
  destruct (getitem_wf (object_eqb Shape_eqb) (fun s => ShapeNames_init (oval s))
              (fun s => In s live_shapes) shape_names_respect
              (_shape_names w) shape Hin Hws) as [Hv Hd].
  destruct (getitem (object_eqb Shape_eqb) (fun s => ShapeNames_init (oval s))
              (_shape_names w) shape) as [names d].
  simpl in Hv, Hd. subst names. simpl.
  split; [reflexivity |]. split; [exact Hd | exact Hwg].
Qed.

Lemma write_instances_script (shapes : list (object Shape)) (w : TokenOutputWriter) :
  Forall (fun shape => In shape live_shapes) shapes ->
  registries_wf live_shapes live_groups w ->
  scad_writer (fold_left write_instance shapes w)
  = scad_writer w
    ++ map (fun shape : object Shape =>
              instance (clipped_shape (ShapeNames_init (oval shape)))) shapes
  /\ registries_wf live_shapes live_groups (fold_left write_instance shapes w).
Proof.
  intros Hall. revert w. induction Hall as [| shape shapes Hin _ IH]; intros w Hw; simpl.
  - rewrite app_nil_r. split; [reflexivity | exact Hw].
  - destruct (write_instance_script w shape Hin Hw) as [Hs Hw1].
    destruct (IH _ Hw1) as [Hs' Hw2].
    split; [| exact Hw2]. rewrite Hs', Hs, <- app_assoc. reflexivity.
Qed.

Lemma write_group_script (w : TokenOutputWriter) (group : object TokenGroup.t) :
  In group live_groups ->
  Forall (fun shape => In shape live_shapes) (TokenGroup.shapes (oval group)) ->
  registries_wf live_shapes live_groups w ->
  scad_writer (write_group w group) = scad_writer w ++ group_block group
  /\ registries_wf live_shapes live_groups (write_group w group).
Proof.
  intros Hin Hmembers [Hws Hwg]. unfold write_group, group_names_getitem.
  destruct (getitem_wf (object_eqb TokenGroup_eqb) (fun g => TokenGroupNames (oval g))
              (fun g => In g live_groups)
              (group_names_respect live_groups groups_consistent)
              (_group_names w) group Hin Hwg) as [Hv Hd].
  destruct (getitem (object_eqb TokenGroup_eqb) (fun g => TokenGroupNames (oval g))
              (_group_names w) group) as [names d].
  simpl in Hv, Hd. subst names. unfold scoped.
  match goal with
  | |- context [fold_left write_instance ?l ?w0] =>
      destruct (write_instances_script l w0 Hmembers) as [Hs Hw1];
        [split; [exact Hws | exact Hd] |]
  end.
  split.
  - rewrite scad_writer_emit, Hs, scad_writer_emit. simpl scad_writer.
    unfold group_block, group_module. rewrite <- !app_assoc. reflexivity.
  - destruct Hw1 as [Hw1s Hw1g]. split; simpl; assumption.
Qed.

Lemma write_group_fold_script (groups : list (object TokenGroup.t))
    (w : TokenOutputWriter) :
  Forall (fun group => In group live_groups
                       /\ Forall (fun shape => In shape live_shapes)
                                 (TokenGroup.shapes (oval group))) groups ->
  registries_wf live_shapes live_groups w ->
  scad_writer (fold_left write_group groups w)
  = scad_writer w ++ flat_map group_block groups
  /\ registries_wf live_shapes live_groups (fold_left write_group groups w).
Proof.
  intros Hall. revert w. induction Hall as [| group groups [Hin Hm] _ IH];
    intros w Hw; simpl.
  - rewrite app_nil_r. split; [reflexivity | exact Hw].
  - destruct (write_group_script w group Hin Hm Hw) as [Hs Hw1].
    destruct (IH _ Hw1) as [Hs' Hw2].
    split; [| exact Hw2]. rewrite Hs', Hs, <- app_assoc. reflexivity.
Qed.

Lemma emit_registries_wf (s : Scad) (w : TokenOutputWriter) :
  registries_wf live_shapes live_groups w ->
  registries_wf live_shapes live_groups (emit s w).
Proof. intros Hw. exact Hw. Qed.

Lemma face_statements (w : TokenOutputWriter) (scene : Scene) (offset : PyNum) :
  Forall (fun group => In group live_groups
                       /\ Forall (fun shape => In shape live_shapes)
                                 (TokenGroup.shapes (oval group)))
         (scene_groups scene) ->
  registries_wf live_shapes live_groups w ->
  let w' :=
    conditional_context true (open_flip false)
      (emit (instantiate_groups (scene_groups scene) offset))
      (emit (write_solids (scene_groups scene) (PyFloat 0.72))
         (write_groups (scene_groups scene)
            (emit (write_clipped_shapes (scene_shapes scene))
               (emit (write_shapes (scene_shapes scene))
                  (emit (write_points_and_paths (scene_shapes scene)) w))))) in
  scad_writer w' = scad_writer w ++ face_script scene offset
  /\ registries_wf live_shapes live_groups w'.
Proof.
  intros Hall Hw. cbv zeta. unfold write_groups.
  match goal with
  | |- context [fold_left write_group ?l ?w0] =>
      destruct (write_group_fold_script l w0 Hall Hw) as [Hs Hw1]
  end.
  split.
  - unfold conditional_context, scoped. rewrite !scad_writer_emit, Hs.
    rewrite !scad_writer_emit. unfold face_script.
    rewrite <- !app_assoc. reflexivity.
  - unfold conditional_context, scoped. exact Hw1.
Qed.

(** The two faces, written one after the other through one writer. *)
Lemma render_faces_script (w : TokenOutputWriter) (scene_front scene_back : Scene) :
  Forall (fun group => In group live_groups
                       /\ Forall (fun shape => In shape live_shapes)
                                 (TokenGroup.shapes (oval group)))
         (scene_groups scene_front ++ scene_groups scene_back) ->
  registries_wf live_shapes live_groups w ->
  scad_writer (render_faces w scene_front scene_back)
  = scad_writer w ++ face_script scene_front (PyInt 0)
    ++ face_script scene_back (PyFloat 1.84).
Proof.
  intros Hall Hw. apply Forall_app in Hall. destruct Hall as [Hf Hb].
  unfold render_faces, render_faces_with. cbv zeta. simpl negb.
  destruct (face_statements w scene_front (PyInt 0) Hf Hw) as [Hs1 Hw1].
  cbv zeta in Hs1, Hw1.
  match type of Hw1 with
  | registries_wf _ _ ?w1 =>
      destruct (face_statements w1 scene_back (PyFloat 1.84) Hb Hw1) as [Hs2 _]
  end.
  cbv zeta in Hs2. rewrite Hs2, Hs1, <- app_assoc. reflexivity.
Qed.

End ScriptStatements.

Section TokenScript.
Context `{ShapeExternals} `{!Backend}.

(** The shapes of both faces of a token are distinct objects, and the
    members of every group are shapes of its face. *)
Lemma token_shapes (frontPath backPath : string) (scene_front scene_back : Scene)
    (writer : TokenOutputWriter) :
  make_amiibozo frontPath backPath = Ok (scene_front, scene_back, writer) ->
  NoDup (map oid (scene_shapes scene_front ++ scene_shapes scene_back))
  /\ Forall (fun group : object TokenGroup.t =>
               Forall (fun shape => In shape (scene_shapes scene_front
                                              ++ scene_shapes scene_back))
                      (TokenGroup.shapes (oval group)))
            (scene_groups scene_front ++ scene_groups scene_back).
Proof.
  intros Hm. apply make_amiibozo_inv in Hm. destruct Hm as (wf & wb & Hf & Hb & _).
  unfold TokenScene.create_scene in Hf, Hb.
  apply from_svg_scene in Hf, Hb. destruct Hf as [Hfo Hfg], Hb as [Hbo Hbg].
  split.
  - rewrite map_app, Hfo, Hbo. apply seq_ranges_NoDup.
    unfold TokenScene.scene_size. lia.
  - apply Forall_app. split; [rewrite Hfg | rewrite Hbg];
      apply Forall_forall; intros g Hg; apply allocate_In in Hg;
      apply by_color_members in Hg; destruct Hg as [_ Hmembers];
      (eapply Forall_impl; [| exact Hmembers]); intros s [Hs _];
      apply in_or_app; [left | right]; exact Hs.
Qed.

(** X16: when equal shapes are given equal names, the script of a token is,
    statement by statement, the base followed by the front face instantiated
    at 0 and the back face instantiated at 1.84. A face is the three
    definitions of its shapes, one module per group holding one instance per
    member shape and named after the group's file and color, the solids at
    height 0.72, and the instantiation of its groups inside a flip block. *)
Theorem token_script_statements (frontPath backPath : string)
    (scene_front scene_back : Scene) (writer : TokenOutputWriter) :
  (forall a b : Shape, Shape_eqb a b = true -> ShapeNames_init a = ShapeNames_init b) ->
  make_amiibozo frontPath backPath = Ok (scene_front, scene_back, writer) ->
  scad_writer writer
  = scad_writer (render_base TokenOutputWriter_init)
    ++ face_script scene_front (PyInt 0)
    ++ face_script scene_back (PyFloat 1.84).
Proof.
  intros Hresp Hm.
  pose proof (NoDup_oid_consistent _ (token_groups_consistent _ _ _ _ _ Hm)) as Hcg.
  destruct (token_shapes _ _ _ _ _ Hm) as [Hnd Hmembers].
  apply NoDup_oid_consistent in Hnd.
  apply make_amiibozo_inv in Hm. destruct Hm as (wf & wb & _ & _ & ->).
  apply (render_faces_script (scene_shapes scene_front ++ scene_shapes scene_back)
           (scene_groups scene_front ++ scene_groups scene_back) Hnd Hcg Hresp).
  - apply Forall_forall. intros g Hg. split; [exact Hg |].
    rewrite Forall_forall in Hmembers. apply Hmembers. exact Hg.
  - split; constructor.
Qed.

Lemma is_ok_unsnapped_sampling (svg_path : SvgPath Style) (precision : PyNum)
    (reverse : bool) :
  is_ok (TokenShape.from_svg_path svg_path precision None reverse)
  = negb (unsupported_fill_rule (svg_style svg_path) || stroked (svg_style svg_path))
    && is_ok (Color_from_html (TokenShape.fill_text (svg_style svg_path))).
Proof.
  destruct (unsupported_fill_rule (svg_style svg_path) || stroked (svg_style svg_path))
    eqn:Hu.
  - rewrite (unsupported_style_raises svg_path precision None reverse Hu). reflexivity.
  - rewrite (supported_style_sampling svg_path precision None reverse Hu).
    rewrite unsnapped_paths.
    destruct (Color_from_html (TokenShape.fill_text (svg_style svg_path))); reflexivity.
Qed.

Lemma forallb_pointwise {A : Type} (p q : A -> bool) (l : list A) :
  (forall a, p a = q a) -> forallb p l = forallb q l.
Proof.
  intros Hpq. induction l as [| a l IH]; simpl; [reflexivity |].
  rewrite Hpq, IH. reflexivity.
Qed.

Lemma is_ok_mapM {A B : Type} (f : A -> result B) (l : list A) :
  is_ok (mapM f l) = forallb (fun a => is_ok (f a)) l.
Proof.
  induction l as [| a l IH]; simpl; [reflexivity |].
  destruct (f a); simpl; [| reflexivity].
  rewrite <- IH. destruct (mapM f l); reflexivity.
Qed.

Lemma create_scene_is_ok (next : nat) (filename : string) (reverse : bool) :
  is_ok (TokenScene.create_scene next filename reverse) = samples filename.
Proof.
  unfold TokenScene.create_scene, TokenScene.from_svg, samples.
  destruct (svg_parse_flatten filename) as [svg_paths | e]; simpl; [| reflexivity].
  rewrite <- (forallb_pointwise _ _ svg_paths
                (fun p => is_ok_unsnapped_sampling p PRECISION reverse)).
  rewrite <- is_ok_mapM.
  destruct (mapM _ svg_paths); reflexivity.
Qed.

Lemma create_scene_samples (next : nat) (filename : string) (reverse : bool) :
  samples filename = true ->
  exists scene, TokenScene.create_scene next filename reverse = Ok (scene, []).
Proof.
  intros Hs. rewrite <- (create_scene_is_ok next filename reverse) in Hs.
  destruct (TokenScene.create_scene next filename reverse) as [[scene warnings] | e]
    eqn:Hc; [| discriminate Hs].
  exists scene. unfold TokenScene.create_scene in Hc.
  apply from_svg_inv in Hc. destruct Hc as [-> _]. reflexivity.
Qed.

(** X17: a token can be made only when both of its artwork files can be
    sampled: each parses, and each of its paths has no unsupported fill
    rule, no stroke and a fill that is a color. When they can, both scenes
    are built, the whole script is written, and the outcome is the
    backend's: the token is made when rendering the script to the output
    file succeeds, and the exception of the backend is that of
    [make_amiibozo] otherwise. *)
Theorem token_made_when_faces_sample_and_backend_renders
    (frontPath backPath : string) :
  (is_ok (make_amiibozo frontPath backPath) = true ->
   samples (svgs_join frontPath) && samples (svgs_join backPath) = true)
  /\ (samples (svgs_join frontPath) && samples (svgs_join backPath) = true ->
      exists scene_front scene_back,
        TokenScene.create_scene 0 (svgs_join frontPath) false = Ok (scene_front, [])
        /\ TokenScene.create_scene (TokenScene.scene_size scene_front)
             (svgs_join backPath) true = Ok (scene_back, [])
        /\ make_amiibozo frontPath backPath
           = match render_file (outputName frontPath)
                     (scad_writer (render_faces (render_base TokenOutputWriter_init)
                                     scene_front scene_back)) with
             | Ok _ =>
                 Ok (scene_front, scene_back,
                     render_faces (render_base TokenOutputWriter_init)
                       scene_front scene_back)
             | Raise e => Raise e
             end).
Proof.
  split.
  - rewrite <- (create_scene_is_ok 0 (svgs_join frontPath) false).
    unfold make_amiibozo.
    destruct (TokenScene.create_scene 0 (svgs_join frontPath) false) as [front | e];
      [| intros Hm; discriminate Hm].
    rewrite <- (create_scene_is_ok (TokenScene.scene_size (fst front))
                  (svgs_join backPath) true).
    cbn [bind].
    destruct (TokenScene.create_scene (TokenScene.scene_size (fst front))
                (svgs_join backPath) true) as [back | e];
      [reflexivity | intros Hm; discriminate Hm].
  - intros Hs. apply andb_prop in Hs. destruct Hs as [Hf Hb].
    destruct (create_scene_samples 0 (svgs_join frontPath) false Hf)
      as (scene_front & Hfront).
    destruct (create_scene_samples (TokenScene.scene_size scene_front)
                (svgs_join backPath) true Hb) as (scene_back & Hback).
    exists scene_front, scene_back.
    split; [exact Hfront |]. split; [exact Hback |].
    unfold make_amiibozo. rewrite Hfront. cbn [bind fst]. rewrite Hback. cbn [bind fst].
    destruct (render_file _ _); reflexivity.
Qed.

Lemma create_scene_polygons (next : nat) (filename : string) (reverse : bool)
    (scene : Scene) (warnings : list string) :
  TokenScene.create_scene next filename reverse = Ok (scene, warnings) ->
  exists svg_paths,
    svg_parse_flatten filename = Ok svg_paths
    /\ map (fun shape => paths (shape_polygon (oval shape))) (scene_shapes scene)
       = map (fun svg_path => scaled_paths (25.4e-3 / 72) reverse
                                (svg_segments svg_path (PyInt 1)))
             svg_paths.
Proof.
  unfold TokenScene.create_scene. intros Hs.
  apply from_svg_inv in Hs. destruct Hs as (_ & svg_paths & Hparse & HF).
  exists svg_paths. split; [exact Hparse |].
  apply Forall2_map_eq. eapply Forall2_impl; [| exact HF].
  intros p shape Hp. apply from_svg_path_paths in Hp.
  rewrite unsnapped_paths in Hp. injection Hp as Hp. symmetry. exact Hp.
Qed.

(** X18: in a token the front face is sampled as drawn and the back face
    mirrored about 90, both at precision 1 and without snapping: path by
    path, the polygon of a shape is the segments of its path with every
    point scaled by 25.4e-3/72. The front file is read from svgs/ under the
    front path, the back file under the back path. *)
Theorem token_faces_sampling (frontPath backPath : string)
    (scene_front scene_back : Scene) (writer : TokenOutputWriter) :
  make_amiibozo frontPath backPath = Ok (scene_front, scene_back, writer) ->
  exists front_paths back_paths,
    svg_parse_flatten (svgs_join frontPath) = Ok front_paths
    /\ svg_parse_flatten (svgs_join backPath) = Ok back_paths
    /\ map (fun shape => paths (shape_polygon (oval shape))) (scene_shapes scene_front)
       = map (fun svg_path => scaled_paths (25.4e-3 / 72) false
                                (svg_segments svg_path (PyInt 1)))
             front_paths
    /\ map (fun shape => paths (shape_polygon (oval shape))) (scene_shapes scene_back)
       = map (fun svg_path => scaled_paths (25.4e-3 / 72) true
                                (svg_segments svg_path (PyInt 1)))
             back_paths.
Proof.
  intros Hm. apply make_amiibozo_inv in Hm. destruct Hm as (wf & wb & Hf & Hb & _).
  apply create_scene_polygons in Hf, Hb.
  destruct Hf as (front_paths & Hfp & Hfs), Hb as (back_paths & Hbp & Hbs).
  exists front_paths, back_paths. repeat split; assumption.
Qed.

End TokenScript.

Lemma Sample_names_respect_eq (a b : Shape_ string) :
  Sample.shape_eqb a b = true -> Sample.shape_names a = Sample.shape_names b.
Proof.
  unfold Sample.shape_eqb, Sample.shape_names. intros Hab.
  apply andb_prop in Hab. destruct Hab as [Hab _].
  apply andb_prop in Hab. destruct Hab as [Hname _].
  apply String.eqb_eq in Hname. rewrite Hname. reflexivity.
Qed.

Section TokenScriptExamples.
#[local] Existing Instance Sample.externals.
#[local] Existing Instance Sample.shape_externals.
#[local] Existing Instance Sample.backend.

Lemma token_script_witness :
  exists scene_front scene_back writer,
    make_amiibozo "front.svg" "back.svg" = Ok (scene_front, scene_back, writer)
    /\ scad_writer writer
       = scad_writer (render_base TokenOutputWriter_init)
         ++ face_script scene_front (PyInt 0)
         ++ face_script scene_back (PyFloat 1.84).
Proof.
  do 3 eexists. split; [vm_compute; reflexivity |].
  apply (@token_script_statements Sample.externals Sample.shape_externals Sample.backend
           "front.svg" "back.svg").
  - exact Sample_names_respect_eq.
  - vm_compute. reflexivity.
Defined.

Lemma token_faces_sampling_witness :
  exists scene_front scene_back writer,
    make_amiibozo "front.svg" "back.svg" = Ok (scene_front, scene_back, writer)
    /\ map (fun shape => paths (shape_polygon (oval shape))) (scene_shapes scene_back)
       = [scaled_paths (25.4e-3 / 72) true
            [[Sample.pt 10 10; Sample.pt 20 10; Sample.pt 20 20; Sample.pt 10 20]]].
Proof.
  do 3 eexists. split; [vm_compute; reflexivity |].
  destruct (@token_faces_sampling Sample.externals Sample.shape_externals Sample.backend
              "front.svg" "back.svg" _ _ _ ltac:(vm_compute; reflexivity))
    as (front_paths & back_paths & _ & Hbp & _ & Hbs).
  rewrite Hbs.
  change (svg_parse_flatten (svgs_join "back.svg")) with (Ok [Sample.square_path]) in Hbp.
  injection Hbp as <-. reflexivity.
Defined.

End TokenScriptExamples.

(** ** The output file and the batch *)

Lemma at_end_before_svg (text : string) (c : ascii) :
  at_end (text ++ String c "svg") = false.
Proof. destruct text as [| x [| y text]]; reflexivity. Qed.

Lemma match_svg_end_inside (text : string) (c : ascii) :
  match_svg_end (text ++ String c "svg") = None.
Proof.
  destruct text as [| b [| b2 [| b3 text]]]; simpl.
  - rewrite !andb_false_r. reflexivity.
  - rewrite !andb_false_r. reflexivity.
  - rewrite !andb_false_r. reflexivity.
  - rewrite at_end_before_svg, !andb_false_r. reflexivity.
Qed.

Lemma skip_continuation_before (stem : string) (c : ascii) :
  is_continuation c = false ->
  exists text, skip_continuation (stem ++ String c "svg") = (text ++ String c "svg")%string.
Proof.
  intros Hc. induction stem as [| a stem IH]; simpl.
  - rewrite Hc. exists EmptyString. reflexivity.
  - destruct (is_continuation a); [exact IH |].
    exists (String a stem). reflexivity.
Qed.

Lemma match_svg_before_end (a c : ascii) (stem : string) :
  is_continuation c = false ->
  match_svg (String a (stem ++ String c "svg")) = None.
Proof.
  intros Hc. unfold match_svg.
  destruct (is_continuation a || Ascii.eqb a newline); [reflexivity |].
  destruct (skip_continuation_before stem c Hc) as (text & ->).
  apply match_svg_end_inside.
Qed.

Lemma is_ascii_not_continuation (c : ascii) :
  is_ascii c = true -> is_continuation c = false.
Proof.
  destruct c as [b0 b1 b2 b3 b4 b5 b6 b7]. simpl.
  destruct b7; [discriminate | reflexivity].
Qed.

Lemma append_empty_r (text : string) : (text ++ "")%string = text.
Proof. induction text as [| c text IH]; simpl; [| rewrite IH]; reflexivity. Qed.

Lemma re_sub_svg_ending (repl stem : string) (c : ascii) :
  is_ascii c = true ->
  Ascii.eqb c newline = false ->
  re_sub_svg repl (stem ++ String c "svg") = (stem ++ repl)%string.
Proof.
  intros Ha Hc. apply is_ascii_not_continuation in Ha.
  induction stem as [| a stem IH].
  - simpl. rewrite Ha, Hc. simpl. apply append_empty_r.
  - change (String a stem ++ String c "svg")%string
      with (String a (stem ++ String c "svg")).
    unfold re_sub_svg; fold re_sub_svg.
    rewrite (match_svg_before_end a c stem Ha), IH. reflexivity.
Qed.

(** X19: a front path that ends in a character below 128 other than a
    newline, followed by [svg], is rendered to the file named by the path
    with these four characters replaced by [.stl], under [models/] unless
    the path is absolute; the dot of the pattern stands for any character.
    The text before these four characters is arbitrary. *)
Theorem output_name_replaces_ending (stem : string) (c : ascii) :
  is_ascii c = true ->
  Ascii.eqb c newline = false ->
  outputName (stem ++ String c "svg") = models_join (stem ++ ".stl").
Proof.
  intros Ha Hc. unfold outputName. rewrite (re_sub_svg_ending ".stl" stem c Ha Hc).
  reflexivity.
Qed.

(** The ending may be a character of several bytes: it is replaced as a
    whole, as for the two bytes 195 169 of an e with an acute accent. *)
Lemma output_name_witness :
  outputName "front.svg" = "models/front.stl"
  /\ outputName "front_svg" = "models/front.stl"
  /\ outputName (String "195"%char (String "169"%char "svg")) = "models/.stl".
Proof.
  split; [| split].
  - apply (output_name_replaces_ending "front" "."%char); reflexivity.
  - apply (output_name_replaces_ending "front" "_"%char); reflexivity.
  - reflexivity.
Defined.

Section BatchFacts.
Context `{ShapeExternals} `{!Backend}.

Lemma main_fronts_extends (series : Series) (fronts : list string)
    (rendered : list (string * list Scad)) :
  exists more, fst (main_fronts series fronts rendered) = rendered ++ more.
Proof.
  revert rendered. induction fronts as [| front fronts IH]; intros rendered; simpl.
  - exists []. rewrite app_nil_r. reflexivity.
  - destruct (backside series) as [back |];
      [| exists []; rewrite app_nil_r; reflexivity].
    destruct (make_amiibozo_output front back) as [output | e];
      [| exists []; rewrite app_nil_r; reflexivity].
    destruct (IH (rendered ++ [output])) as (more & Hmore).
    exists (output :: more). rewrite Hmore, <- app_assoc. reflexivity.
Qed.

Lemma main_series_extends (all : list Series) (rendered : list (string * list Scad)) :
  exists more, fst (main_series all rendered) = rendered ++ more.
Proof.
  revert rendered. induction all as [| series all IH]; intros rendered; simpl.
  - exists []. rewrite app_nil_r. reflexivity.
  - destruct (frontsides series) as [fronts |];
      [| exists []; rewrite app_nil_r; reflexivity].
    destruct (main_fronts_extends series fronts rendered) as (more & Hmore).
    destruct (main_fronts series fronts rendered) as [rendered' [e |]]; simpl in Hmore.
    + exists more. exact Hmore.
    + destruct (IH rendered') as (more' & Hmore').
      exists (more ++ more'). rewrite Hmore', Hmore, app_assoc. reflexivity.
Qed.

Lemma main_series_app (before after : list Series)
    (rendered : list (string * list Scad)) :
  main_series (before ++ after) rendered
  = match main_series before rendered with
    | (rendered', None) => main_series after rendered'
    | stopped => stopped
    end.
Proof.
  revert rendered. induction before as [| series before IH]; intros rendered; simpl.
  - reflexivity.
  - destruct (frontsides series) as [fronts |]; [| reflexivity].
    destruct (main_fronts series fronts rendered) as [rendered' [e |]];
      [reflexivity | apply IH].
Qed.

Lemma main_fronts_done (series : Series) (fronts : list string)
    (rendered rendered' : list (string * list Scad)) :
  main_fronts series fronts rendered = (rendered', None) ->
  exists outputs,
    rendered' = rendered ++ outputs
    /\ Forall2 (fun front output =>
                  exists back, backside series = Some back
                               /\ make_amiibozo_output front back = Ok output)
               fronts outputs.
Proof.
  revert rendered. induction fronts as [| front fronts IH]; intros rendered; simpl.
  - intros Hm. injection Hm as <-. exists []. rewrite app_nil_r.
    split; [reflexivity | constructor].
  - destruct (backside series) as [back |] eqn:Hback; [| discriminate].
    destruct (make_amiibozo_output front back) as [output | e] eqn:Hout;
      [| discriminate].
    intros Hm. destruct (IH _ Hm) as (outputs & -> & HF).
    exists (output :: outputs). split; [rewrite <- app_assoc; reflexivity |].
    constructor; [| exact HF]. exists back. split; [reflexivity | exact Hout].
Qed.

Lemma main_series_done (all : list Series)
    (rendered rendered' : list (string * list Scad)) :
  main_series all rendered = (rendered', None) ->
  exists outputs,
    rendered' = rendered ++ outputs
    /\ Forall2 (fun job output => make_amiibozo_output (fst job) (snd job) = Ok output)
               (jobs all) outputs.
Proof.
  revert rendered. induction all as [| series all IH]; intros rendered; simpl.
  - intros Hm. injection Hm as <-. exists []. rewrite app_nil_r.
    split; [reflexivity | constructor].
  - destruct (frontsides series) as [fronts |] eqn:Hfronts; [| discriminate].
    destruct (main_fronts series fronts rendered) as [rendered1 [e |]] eqn:Hinner;
      [discriminate |].
    intros Hm. apply main_fronts_done in Hinner. destruct Hinner as (outs1 & -> & HF1).
    destruct (IH _ Hm) as (outs2 & -> & HF2).
    exists (outs1 ++ outs2). split; [rewrite app_assoc; reflexivity |].
    apply Forall2_app; [| exact HF2].
    destruct (backside series) as [back |].
    + clear - HF1. induction HF1 as [| front output fronts outs (b & Hb & Hout) _ IH];
        simpl; constructor; [| exact IH].
      injection Hb as <-. exact Hout.
    + inversion HF1 as [| front output fronts' outs (b & Hb & _) _]; subst;
        [constructor | discriminate Hb].
Qed.

(** X20: when the main program ends without an exception, the
    configuration has its series, and the renderings are, in order, those of
    every front side of every series with the back side of its series: one
    file per front side, named after the front path alone. *)
Theorem batch_renders_every_front_side (data_series : option (list Series))
    (rendered : list (string * list Scad)) :
  main data_series = (rendered, None) ->
  exists all,
    data_series = Some all
    /\ Forall2 (fun job output =>
                  make_amiibozo_output (fst job) (snd job) = Ok output
                  /\ fst output = outputName (fst job))
               (jobs all) rendered.
Proof.
  destruct data_series as [all |]; simpl; [| discriminate].
  intros Hm. exists all. split; [reflexivity |].
  apply main_series_done in Hm. destruct Hm as (outputs & -> & HF). simpl.
  eapply Forall2_impl; [| exact HF]. intros [front back] output Hout.
  split; [exact Hout |]. simpl in Hout. unfold make_amiibozo_output in Hout.
  apply bind_Ok_inv in Hout. destruct Hout as (token & _ & Hout).
  injection Hout as <-. reflexivity.
Qed.

(** X21: the main program stops at the first exception: what was rendered
    before it stays rendered, and no series after it is looked at. Whatever
    follows in the configuration, the renderings of its first series come
    first. *)
Theorem batch_stops_at_first_exception (before after : list Series) :
  (exists more, fst (main (Some (before ++ after))) = fst (main (Some before)) ++ more)
  /\ (forall e, snd (main (Some before)) = Some e ->
                main (Some (before ++ after)) = main (Some before)).
Proof.
  simpl. rewrite main_series_app.
  destruct (main_series before []) as [rendered [e |]] eqn:Hbefore; simpl; split.
  - exists []. rewrite app_nil_r. reflexivity.
  - intros e' _. reflexivity.
  - apply main_series_extends.
  - intros e' He'. discriminate He'.
Qed.

End BatchFacts.

Section BatchExamples.
#[local] Existing Instance Sample.externals.
#[local] Existing Instance Sample.shape_externals.
#[local] Existing Instance Sample.backend.

Lemma batch_renders_witness :
  exists first second,
    main (Some [ {| frontsides := Some ["front.svg"; "dot.svg"];
                    backside := Some "back.svg" |};
                 {| frontsides := Some []; backside := None |} ])
    = ([first; second], None)
    /\ fst first = "models/front.stl"
    /\ fst second = "models/dot.stl".
Proof.
  do 2 eexists. split; [vm_compute; reflexivity |].
  destruct (@batch_renders_every_front_side Sample.externals Sample.shape_externals Sample.backend
              (Some [ {| frontsides := Some ["front.svg"; "dot.svg"];
                         backside := Some "back.svg" |};
                      {| frontsides := Some []; backside := None |} ])
              _ ltac:(vm_compute; reflexivity))
    as (all & Hall & HF).
  injection Hall as <-. simpl in HF.
  inversion HF as [| job1 out1 jobs1 outs1 [_ Hn1] HF1]; subst.
  inversion HF1 as [| job2 out2 jobs2 outs2 [_ Hn2] _]; subst.
  split; [exact Hn1 | exact Hn2].
Defined.

End BatchExamples.
